(** * Error translation and middleware pipeline of the Express API

    A shallow embedding of

    - [src/Utils/errorHandler/errorHandler.ts]: [getPrismaErrorMessage],
      [formatValidationErrors], [throwError], [logError],
      [sendErrorResponse] and [handleError];
    - [config/apiConfigMiddleware.config.ts]: [configureMiddleware] and
      the compression filter it installs.

    The JavaScript values the handler receives ([error: unknown]) are an
    inductive type; the writes the handler performs (console, logger,
    response) are events appended to a trace threaded through a small
    state-and-exception monad. *)

From Stdlib Require Import String Ascii ZArith List Lia DecimalString.
From stdpp Require Import base strings gmap.
Import ListNotations.

#[local] Set Warnings "-register-all".
#[local] Open Scope string_scope.

(* ================================================================== *)
(** ** JavaScript values *)
(* ================================================================== *)

Module JS.

(** Identity of a heap-allocated object or array: [===] on two objects
    compares these, not the contents. *)
Definition ref := N.

(** The prototype chain of an object, as far as [instanceof] in the
    source can tell: a plain object, a native [Error] (which carries its
    non-enumerable [message]), or Prisma's
    [PrismaClientKnownRequestError], a subclass of [Error]. *)
Inductive class :=
| ObjectClass
| ErrorClass (message : string)
| PrismaClientKnownRequestError (message : string).

(** Values. [VNumber] holds the integer-valued numbers (status codes,
    counters); [VFunction] a function, with its source text and what a
    call to it yields, the same at every call; [VObject] lists the own
    enumerable properties, all of them data properties, in enumeration
    order, with distinct keys. A value is a finite tree: it holds no
    cycle. *)
Inductive value :=
| VUndefined
| VNull
| VBool (b : bool)
| VNumber (n : Z)
| VBigInt (n : Z)
| VString (s : string)
| VFunction (r : ref) (source : string) (result : completion)
| VArray (r : ref) (elems : list value)
| VObject (r : ref) (c : class) (props : list (string * value))

(** What a call to a function yields: the value it returns or the value
    it throws. *)
with completion :=
| Returns (v : value)
| Raises (v : value).

Arguments VFunction r%_N source result.
Arguments VArray r%_N elems.
Arguments VObject r%_N c props.

(** What a [throw] carries: a value thrown by user code, a [TypeError]
    raised by a built-in, or the [RangeError] with which Node refuses a
    status code ([ERR_HTTP_INVALID_STATUS_CODE]). *)
Inductive exn :=
| Thrown (v : value)
| TypeError (msg : string)
| InvalidStatusCode (status : value).

Inductive outcome (A : Type) :=
| Return (a : A)
| Throw (e : exn).
Arguments Return {A} a.
Arguments Throw {A} e.

(** [typeof v] *)
Definition typeof (v : value) : string :=
  match v with
  | VUndefined => "undefined"
  | VNull => "object"
  | VBool _ => "boolean"
  | VNumber _ => "number"
  | VBigInt _ => "bigint"
  | VString _ => "string"
  | VFunction _ _ _ => "function"
  | VArray _ _ => "object"
  | VObject _ _ _ => "object"
  end.

(** ToBoolean, as used by [if (v)], [v || w] and [v ? a : b]. *)
Definition truthy (v : value) : bool :=
  match v with
  | VUndefined | VNull => false
  | VBool b => b
  | VNumber n | VBigInt n => negb (n =? 0)%Z
  | VString s => negb (s =? "")
  | VFunction _ _ _ | VArray _ _ | VObject _ _ _ => true
  end.

Fixpoint assoc (k : string) (props : list (string * value)) : option value :=
  match props with
  | [] => None
  | (k', v) :: rest => if k =? k' then Some v else assoc k rest
  end.

Definition is_error_class (c : class) : bool :=
  match c with
  | ObjectClass => false
  | ErrorClass _ | PrismaClientKnownRequestError _ => true
  end.

Definition class_message (c : class) : option string :=
  match c with
  | ObjectClass => None
  | ErrorClass m | PrismaClientKnownRequestError m => Some m
  end.

(** [v.k] for the keys the source reads ([code], [meta], [target],
    [status], [error], [message]); none of them but [message] is
    defined on a built-in prototype. Reading a property of a primitive
    other than [undefined] and [null] yields [undefined]. *)
Definition get (v : value) (k : string) : value :=
  match v with
  | VObject _ c props =>
      match class_message c with
      | Some m => if k =? "message" then VString m
                  else default VUndefined (assoc k props)
      | None => default VUndefined (assoc k props)
      end
  | _ => VUndefined
  end.

(** [v?.k] *)
Definition get_optional (v : value) (k : string) : value :=
  match v with
  | VUndefined | VNull => VUndefined
  | _ => get v k
  end.

(** [k in v]. The source applies it only under the
    [typeof v === 'object' && v !== null] guard, where it cannot throw. *)
Definition has_property (k : string) (v : value) : bool :=
  match v with
  | VObject _ c props =>
      bool_decide (is_Some (assoc k props))
      || (is_error_class c && (k =? "message"))
  | _ => false
  end.

(** [v instanceof Error] and [v instanceof Prisma.PrismaClientKnownRequestError] *)
Definition instanceof_Error (v : value) : bool :=
  match v with
  | VObject _ c _ => is_error_class c
  | _ => false
  end.

Definition instanceof_PrismaClientKnownRequestError (v : value) : bool :=
  match v with
  | VObject _ (PrismaClientKnownRequestError _) _ => true
  | _ => false
  end.

(** [a === b] *)
Definition strict_equals (a b : value) : bool :=
  match a, b with
  | VUndefined, VUndefined | VNull, VNull => true
  | VBool x, VBool y => bool_decide (x = y)
  | VNumber x, VNumber y | VBigInt x, VBigInt y => (x =? y)%Z
  | VString x, VString y => x =? y
  | VFunction r _ _, VFunction r' _ _
  | VArray r _, VArray r' _
  | VObject r _ _, VObject r' _ _ => (r =? r')%N
  | _, _ => false
  end.

(** Decimal rendering of an integer, [Number.prototype.toString] for the
    integers below 10^21. *)
Definition number_to_string (n : Z) : string :=
  NilZero.string_of_int (Z.to_int n).

Definition class_name (c : class) : string :=
  match c with
  | ObjectClass => "Object"
  | ErrorClass _ => "Error"
  | PrismaClientKnownRequestError _ => "PrismaClientKnownRequestError"
  end.

(** ToString, as applied by template literals and by [+] on a string. *)
Fixpoint to_string (v : value) : string :=
  match v with
  | VUndefined => "undefined"
  | VNull => "null"
  | VBool true => "true"
  | VBool false => "false"
  | VNumber n | VBigInt n => number_to_string n
  | VString s => s
  | VFunction _ source _ => source
  | VArray _ elems =>
      String.concat ","
        (map (fun e => match e with
                       | VUndefined | VNull => ""
                       | _ => to_string e
                       end) elems)
  | VObject _ c _ =>
      match class_message c with
      | None => "[object Object]"
      | Some m => if m =? "" then class_name c
                  else class_name c ++ ": " ++ m
      end
  end.

(** *** [JSON.stringify] *)

Definition hex_digit (n : N) : ascii :=
  match n with
  | 0 => "0" | 1 => "1" | 2 => "2" | 3 => "3" | 4 => "4" | 5 => "5"
  | 6 => "6" | 7 => "7" | 8 => "8" | 9 => "9" | 10 => "a" | 11 => "b"
  | 12 => "c" | 13 => "d" | 14 => "e" | _ => "f"
  end%N%char.

Definition quote_char (c : ascii) : string :=
  let n := N_of_ascii c in
  if (n =? 34)%N then String "\" (String c "")
  else if (n =? 92)%N then "\\"
  else if (n =? 8)%N then "\b"
  else if (n =? 9)%N then "\t"
  else if (n =? 10)%N then "\n"
  else if (n =? 12)%N then "\f"
  else if (n =? 13)%N then "\r"
  else if (n <? 32)%N then
    "\u00" ++ String (hex_digit (n / 16)) (String (hex_digit (n mod 16)) "")
  else String c "".

Fixpoint quote_chars (s : string) : string :=
  match s with
  | EmptyString => ""
  | String c rest => quote_char c ++ quote_chars rest
  end.

(** QuoteJSONString *)
Definition quote (s : string) : string :=
  String (ascii_of_N 34) (quote_chars s ++ String (ascii_of_N 34) "").

(** SerializeJSONProperty. [None] is the [undefined] that
    [JSON.stringify] answers for [undefined] and for a function. With
    [own_toJSON], an object that has a callable [toJSON] property is
    replaced by what the call yields, and the replacement is serialized
    without a second call; the values inside an array or an object are
    always serialized with their own [toJSON]. A BigInt raises a
    [TypeError]; what a [toJSON] throws is thrown on. *)
Fixpoint serialize (own_toJSON : bool) (v : value) {struct v}
    : outcome (option string) :=
  match v with
  | VUndefined => Return None
  | VNull => Return (Some "null")
  | VBool true => Return (Some "true")
  | VBool false => Return (Some "false")
  | VNumber n => Return (Some (number_to_string n))
  | VBigInt _ => Throw (TypeError "Do not know how to serialize a BigInt")
  | VString s => Return (Some (quote s))
  | VFunction _ _ _ => Return None
  | VArray _ elems =>
      let fix items (l : list value) : outcome (list string) :=
        match l with
        | [] => Return []
        | e :: rest =>
            match serialize true e with
            | Throw x => Throw x
            | Return o =>
                match items rest with
                | Throw x => Throw x
                | Return ss => Return (default "null" o :: ss)
                end
            end
        end in
      match items elems with
      | Throw x => Throw x
      | Return ss => Return (Some ("[" ++ String.concat "," ss ++ "]"))
      end
  | VObject _ _ props =>
      let fix members (l : list (string * value)) : outcome (list string) :=
        match l with
        | [] => Return []
        | (k, e) :: rest =>
            match serialize true e with
            | Throw x => Throw x
            | Return o =>
                match members rest with
                | Throw x => Throw x
                | Return ss =>
                    Return (match o with
                            | None => ss
                            | Some s => (quote k ++ ":" ++ s) :: ss
                            end)
                end
            end
        end in
      let fix toJSON (l : list (string * value))
          : option (outcome (option string)) :=
        match l with
        | [] => None
        | (k, e) :: rest =>
            if k =? "toJSON" then
              match e with
              | VFunction _ _ (Returns replacement) =>
                  Some (serialize false replacement)
              | VFunction _ _ (Raises x) => Some (Throw (Thrown x))
              | _ => None
              end
            else toJSON rest
        end in
      match (if own_toJSON then toJSON props else None) with
      | Some o => o
      | None =>
          match members props with
          | Throw x => Throw x
          | Return ss => Return (Some ("{" ++ String.concat "," ss ++ "}"))
          end
      end
  end.

(** The three list traversals of [serialize], on their own. *)
Definition serialize_items : list value -> outcome (list string) :=
  fix items (l : list value) : outcome (list string) :=
    match l with
    | [] => Return []
    | e :: rest =>
        match serialize true e with
        | Throw x => Throw x
        | Return o =>
            match items rest with
            | Throw x => Throw x
            | Return ss => Return (default "null" o :: ss)
            end
        end
    end.

Definition serialize_members : list (string * value) -> outcome (list string) :=
  fix members (l : list (string * value)) : outcome (list string) :=
    match l with
    | [] => Return []
    | (k, e) :: rest =>
        match serialize true e with
        | Throw x => Throw x
        | Return o =>
            match members rest with
            | Throw x => Throw x
            | Return ss =>
                Return (match o with
                        | None => ss
                        | Some s => (quote k ++ ":" ++ s) :: ss
                        end)
            end
        end
    end.

Definition serialize_toJSON
    : list (string * value) -> option (outcome (option string)) :=
  fix toJSON (l : list (string * value)) : option (outcome (option string)) :=
    match l with
    | [] => None
    | (k, e) :: rest =>
        if k =? "toJSON" then
          match e with
          | VFunction _ _ (Returns replacement) =>
              Some (serialize false replacement)
          | VFunction _ _ (Raises x) => Some (Throw (Thrown x))
          | _ => None
          end
        else toJSON rest
    end.

(** [JSON.stringify(v)] *)
Definition JSON_stringify (v : value) : outcome value :=
  match serialize true v with
  | Throw x => Throw x
  | Return None => Return VUndefined
  | Return (Some s) => Return (VString s)
  end.

(** The exception [JSON.stringify] raises on a BigInt. *)
Definition bigint_type_error : exn :=
  TypeError "Do not know how to serialize a BigInt".

(** A BigInt occurs in [v]: [v] itself, an element of an array or the
    value of an enumerable property, at any depth. *)
Fixpoint contains_bigint (v : value) : bool :=
  match v with
  | VBigInt _ => true
  | VArray _ elems => existsb contains_bigint elems
  | VObject _ _ props => existsb (fun p => contains_bigint (snd p)) props
  | _ => false
  end.

(** No function occurs in [v], at any depth: [v] is data. *)
Fixpoint function_free (v : value) : bool :=
  match v with
  | VFunction _ _ _ => false
  | VArray _ elems => forallb function_free elems
  | VObject _ _ props => forallb (fun p => function_free (snd p)) props
  | _ => true
  end.

(** What [serialize] does on data, by whether a BigInt occurs in it. *)
Definition serialize_outcome (v : value) : Prop :=
  function_free v = true ->
  forall own_toJSON,
    if contains_bigint v
    then serialize own_toJSON v = Throw bigint_type_error
    else exists o, serialize own_toJSON v = Return o.

(** ToInt32 of an integer: what [n | 0] yields. *)
Definition to_int32 (n : Z) : Z :=
  ((n + 2147483648) mod 4294967296 - 2147483648)%Z.

End JS.


(* ================================================================== *)
(** ** The Express request *)
(* ================================================================== *)

Module Express.

(** The parts of [express.Request] the two source files read. [headers]
    maps the lower-cased header names to their values; [remoteAddress] is
    the address of the peer socket, from which [req.ip] is resolved. *)
Record Request := {
  method : string;
  originalUrl : string;
  url : string;
  path : string;
  headers : gmap string string;
  remoteAddress : string;
  body : JS.value
}.

(** The response object, for the one thing the error handler does with
    it: [res.status(code).json(body)]. For a code that is a number,
    [undefined], [null] or a boolean the outcome is fixed by Express and
    Node and is written out in [sendErrorResponse]. For a code of another
    kind (a string, a BigInt, a function, an array, an object) it hangs on
    the conversion of the code to a number, which is the language's and may
    itself throw: [json_with_other_status code error] tells whether the
    call completes, and with what exception it does not. *)
Record Response := {
  json_with_other_status : JS.value -> JS.value -> JS.outcome unit
}.

(** A response to try the definitions on: it refuses every code that is
    not a number. *)
Definition sample_response : Response :=
  {| json_with_other_status := fun code _ =>
       JS.Throw (JS.InvalidStatusCode code) |}.

(** A request to try the definitions on. *)
Definition sample_request : Request :=
  {| method := "POST";
     originalUrl := "/api/users?dry=1";
     url := "/api/users?dry=1";
     path := "/api/users";
     headers := ∅;
     remoteAddress := "127.0.0.1";
     body := JS.VNull |}.

End Express.

(* ================================================================== *)
(** ** src/Utils/errorHandler/errorHandler.ts *)
(* ================================================================== *)

Module ErrorHandler.
Import JS Express.

(** What [getPrismaErrorMessage] returns: [{ status: number, message: string }]. *)
Record PrismaErrorMessage := {
  pm_status : Z;
  pm_message : string
}.

(** What [formatValidationErrors] returns. Its declared type promises a
    number and an array; [handleError] casts an unchecked value to it, so
    both fields hold whatever the error object holds. *)
Record ValidationErrors := {
  ve_status : value;
  ve_error : value
}.

(** The object [{ status, error }] handed to [res.json]. *)
Record ErrorEnvelope := {
  env_status : value;
  env_error : value
}.

(** The writes of the module: [console.error], [logger.error],
    [res.status] and a completed [res.json]. *)
Inductive event :=
| ConsoleError (line : string)
| LoggerError (line : string)
| ResStatus (code : value)
| ResJson (body : ErrorEnvelope).

(** The state the module runs in: the next free object identity, the
    text [formatDate(new Date())] yields ([formatDate] is imported, its
    result is taken as given), and the writes made so far, oldest first. *)
Record world := {
  next_ref : ref;
  formatDate_now : string;
  trace : list event
}.
Arguments Build_world next_ref%_N formatDate_now trace.

(** State and exception monad. *)
Definition M (A : Type) : Type := world -> outcome A * world.

Definition ret {A} (a : A) : M A := fun w => (Return a, w).

Definition bind {A B} (m : M A) (k : A -> M B) : M B :=
  fun w =>
    match m w with
    | (Return a, w') => k a w'
    | (Throw e, w') => (Throw e, w')
    end.

#[export] Instance M_ret : MRet M := @ret.
#[export] Instance M_bind : MBind M := fun A B k m => bind m k.

Definition throw {A} (e : exn) : M A := fun w => (Throw e, w).

Definition lift {A} (o : outcome A) : M A := fun w => (o, w).

Definition emit (e : event) : M unit :=
  fun w => (Return tt,
            {| next_ref := next_ref w;
               formatDate_now := formatDate_now w;
               trace := (trace w ++ [e])%list |}).

(** Allocation of an object literal. *)
Definition alloc : M ref :=
  fun w => (Return (next_ref w),
            {| next_ref := N.succ (next_ref w);
               formatDate_now := formatDate_now w;
               trace := trace w |}).

Definition now : M string := fun w => (Return (formatDate_now w), w).

(** [a || b] *)
Definition or_else (a b : value) : value := if truthy a then a else b.

Definition getPrismaErrorMessage (error : value) : PrismaErrorMessage :=
  let code := get error "code" in
  if strict_equals code (VString "P2002") then
    let field := or_else (get_optional (get error "meta") "target")
                         (VString "inconnu") in
    {| pm_status := 400;
       pm_message := "Erreur : le champ " ++ to_string field
         ++ " doit être unique. La valeur fournie est déjà utilisée." |}
  else if strict_equals code (VString "P2003") then
    {| pm_status := 400;
       pm_message := "Erreur : violation de contrainte de clé étrangère. Veuillez vérifier les références." |}
  else if strict_equals code (VString "P2025") then
    {| pm_status := 404;
       pm_message := "Erreur : Une opération a échoué car elle dépend d'un ou plusieurs enregistrements requis mais introuvables." |}
  else
    {| pm_status := 500;
       pm_message := "Erreur serveur : une erreur Prisma inconnue s'est produite." |}.

Definition formatValidationErrors (error : value) : ValidationErrors :=
  {| ve_status := get error "status"; ve_error := get error "error" |}.

Definition throwError (status : Z) (message : string) : M unit :=
  outer ← alloc;
  inner ← alloc;
  throw (Thrown
    (VObject outer ObjectClass
       [("status", VNumber status);
        ("error", VObject inner ObjectClass [("message", VString message)])])).

(** [errorMessage ? '| ' + errorMessage : ''] *)
Definition diagnostic (errorMessage : option string) : string :=
  match errorMessage with
  | Some s => if truthy (VString s) then "| " ++ s else ""
  | None => ""
  end.

Definition logError (type : string) (req : Request) (message : value)
    (errorMessage : option string) : M unit :=
  dateFormated ← now;
  emit (ConsoleError
    ("[" ++ dateFormated ++ "] " ++ type ++ " : " ++ to_string message
       ++ " " ++ diagnostic errorMessage));;
  emit (LoggerError
    ("Method: " ++ method req ++ ", Path: " ++ originalUrl req ++ "  "
       ++ type ++ " : " ++ to_string message ++ " " ++ diagnostic errorMessage)).

(** The object literal [{ status, error }], as [JSON.stringify] sees it. *)
Definition envelope_value (status error : value) : value :=
  VObject 0 ObjectClass [("status", status); ("error", error)].

(** What Node reads as the status code when it writes the head of the
    response, [statusCode |= 0], for the codes whose conversion cannot
    throw. *)
Definition status_int32 (status : value) : option Z :=
  match status with
  | VNumber n => Some (to_int32 n)
  | VUndefined | VNull | VBool false => Some 0%Z
  | VBool true => Some 1%Z
  | _ => None
  end.

(** A status code Node accepts: from 100 to 999. *)
Definition valid_status_code (code : Z) : bool :=
  (100 <=? code)%Z && (code <=? 999)%Z.

(** A status [res.json] sends the response under. *)
Definition accepted_status (status : value) : bool :=
  match status_int32 status with
  | Some code => valid_status_code code
  | None => false
  end.

(** [res.status(status)] records the code; [res.json(body)] serializes
    the body with [JSON.stringify], under the default JSON settings of the
    application, and sends it, at which point Node raises
    [ERR_HTTP_INVALID_STATUS_CODE] instead of sending when the code is not
    from 100 to 999. [ResStatus] is the call of [res.status]; [ResJson] is
    a call of [res.json] that completed: the response went out under the
    recorded status, with the body unless HTTP sends none (a status 1xx,
    204, 205 or 304, a HEAD request). *)
Definition sendErrorResponse (res : Response) (status : value) (error : value)
    : M unit :=
  emit (ResStatus status);;
  match status_int32 status with
  | Some code =>
      lift (JSON_stringify (envelope_value status error));;
      if valid_status_code code
      then emit (ResJson {| env_status := status; env_error := error |})
      else throw (InvalidStatusCode status)
  | None =>
      lift (json_with_other_status res status error);;
      emit (ResJson {| env_status := status; env_error := error |})
  end.

(** One trace stands for one exchange: [ResStatus] and [ResJson] are the
    calls on [res]. *)
Definition handleError (error : value) (req : Request) (res : Response)
    (errorMessage : option string) : M unit :=
  if instanceof_PrismaClientKnownRequestError error then
    let errorPrisma := getPrismaErrorMessage error in
    logError "Erreur Prisma" req (VString (pm_message errorPrisma)) errorMessage;;
    sendErrorResponse res (VNumber (pm_status errorPrisma))
                      (VString (pm_message errorPrisma))
  else if (typeof error =? "object")
          && negb (strict_equals error VNull)
          && has_property "status" error then
    let validationError := formatValidationErrors error in
    text ← lift (JSON_stringify (ve_error validationError));
    logError "Erreur de validation" req text errorMessage;;
    sendErrorResponse res (ve_status validationError) (ve_error validationError)
  else if instanceof_Error error then
    logError "Erreur serveur" req (get error "message") errorMessage;;
    sendErrorResponse res (VNumber 500) (get error "message")
  else
    logError "Erreur inconnue" req (VString "Erreur serveur inconnue") errorMessage;;
    sendErrorResponse res (VNumber 500) (VString "Erreur serveur inconnue").

(** The four kinds of the error taxonomy of the specification. *)
Inductive ClassifiedError :=
| StorageError
| ValidationError
| RuntimeError
| UnknownError.

(** The guard of the second branch of [handleError]. *)
Definition status_carrier (error : value) : bool :=
  (typeof error =? "object")
  && negb (strict_equals error VNull)
  && has_property "status" error.

(** The branch of [handleError] an error value takes: its conditions, in
    its order. *)
Definition classify (error : value) : ClassifiedError :=
  if instanceof_PrismaClientKnownRequestError error then StorageError
  else if status_carrier error then ValidationError
  else if instanceof_Error error then RuntimeError
  else UnknownError.

(** The label each branch passes to [logError]. *)
Definition label (k : ClassifiedError) : string :=
  match k with
  | StorageError => "Erreur Prisma"
  | ValidationError => "Erreur de validation"
  | RuntimeError => "Erreur serveur"
  | UnknownError => "Erreur inconnue"
  end.

(** *** Reading a run *)

(** The world after the writes [es]. *)
Definition written (w : world) (es : list event) : world :=
  {| next_ref := next_ref w;
     formatDate_now := formatDate_now w;
     trace := (trace w ++ es)%list |}.

(** The two lines [logError] writes. *)
Definition console_line (date type : string) (message : value)
    (errorMessage : option string) : string :=
  "[" ++ date ++ "] " ++ type ++ " : " ++ to_string message
    ++ " " ++ diagnostic errorMessage.

Definition logger_line (type : string) (req : Request) (message : value)
    (errorMessage : option string) : string :=
  "Method: " ++ method req ++ ", Path: " ++ originalUrl req ++ "  "
    ++ type ++ " : " ++ to_string message ++ " " ++ diagnostic errorMessage.

(** The log write of [logError]. *)
Definition log_lines (w : world) (type : string) (req : Request) (message : value)
    (errorMessage : option string) : list event :=
  [ConsoleError (console_line (formatDate_now w) type message errorMessage);
   LoggerError (logger_line type req message errorMessage)].

(** One complete answer: the log write of [logError], then the response
    write of [sendErrorResponse]. *)
Definition answer (w : world) (type : string) (req : Request) (message : value)
    (errorMessage : option string) (status error : value) : list event :=
  [ConsoleError (console_line (formatDate_now w) type message errorMessage);
   LoggerError (logger_line type req message errorMessage);
   ResStatus status;
   ResJson {| env_status := status; env_error := error |}].

(** The records sent to the log sink and the bodies sent to the client. *)
Fixpoint log_writes (t : list event) : list string :=
  match t with
  | [] => []
  | LoggerError line :: rest => line :: log_writes rest
  | _ :: rest => log_writes rest
  end.

Fixpoint responses (t : list event) : list ErrorEnvelope :=
  match t with
  | [] => []
  | ResJson b :: rest => b :: responses rest
  | _ :: rest => responses rest
  end.

(** A world to try the definitions on: nothing written yet. *)
Definition sample_world : world :=
  {| next_ref := 1; formatDate_now := "31/01/2025 12:00:00"; trace := [] |}.

(** *** Shapes *)

Definition is_string (v : value) : bool :=
  match v with VString _ => true | _ => false end.

Definition is_array (v : value) : bool :=
  match v with VArray _ _ => true | _ => false end.

(** [{ field: string, message: string }] *)
Definition is_field_error (v : value) : bool :=
  match v with
  | VObject _ ObjectClass [(k1, VString _); (k2, VString _)] =>
      ((k1 =? "field") && (k2 =? "message"))
      || ((k1 =? "message") && (k2 =? "field"))
  | _ => false
  end.

(** [{ field: string, message: string }[]] *)
Definition is_field_error_array (v : value) : bool :=
  match v with
  | VArray _ entries => forallb is_field_error entries
  | _ => false
  end.

(** The validation shape [{ status: number, error: { field, message }[] }],
    plain data. *)
Definition validation_shaped (v : value) : bool :=
  match v with
  | VObject _ ObjectClass _ =>
      match get v "status" with
      | VNumber _ => is_field_error_array (get v "error")
      | _ => false
      end
  | _ => false
  end.

(** A value that is no object: [typeof] is not ['object'], or it is [null]. *)
Definition non_object (v : value) : Prop :=
  typeof v <> "object" \/ v = VNull.

End ErrorHandler.


(* ================================================================== *)
(** ** config/apiConfigMiddleware.config.ts *)
(* ================================================================== *)

Module ApiConfigMiddleware.
Import JS Express.

(** *** The compression filter *)

(** Canonicalize of a case-insensitive, non-unicode regular expression:
    a character is compared through its upper case; a character outside
    ASCII never folds onto an ASCII one. *)
Definition canonicalize (c : ascii) : ascii :=
  let n := N_of_ascii c in
  if (97 <=? n)%N && (n <=? 122)%N then ascii_of_N (n - 32) else c.

Fixpoint canonicalize_all (s : string) : string :=
  match s with
  | EmptyString => EmptyString
  | String c rest => String (canonicalize c) (canonicalize_all rest)
  end.

(** The alternatives of the pattern. *)
Definition media_extensions : list string :=
  ["jpg"; "jpeg"; "png"; "gif"; "pdf"; "svg"; "mp4"].

(** A match of [pattern$] under the [i] flag: some start position of [s]
    from which [pattern] covers the input up to its end. *)
Fixpoint matches_at_end (pattern s : string) : bool :=
  (canonicalize_all s =? canonicalize_all pattern)
  || match s with
     | EmptyString => false
     | String _ rest => matches_at_end pattern rest
     end.

(** [s.match(/\.(jpg|jpeg|png|gif|pdf|svg|mp4)$/i)] is not [null]. *)
Definition matches_media_extension (s : string) : bool :=
  existsb (fun ext => matches_at_end ("." ++ ext) s) media_extensions.

(** [req.headers[name]] *)
Definition header (req : Request) (name : string) : value :=
  match headers req !! name with
  | Some v => VString v
  | None => VUndefined
  end.

(** The [filter] option handed to [compression]: [true] lets the response
    be compressed, [false] skips compression. *)
Definition compression_filter (req : Request) : bool :=
  if truthy (header req "x-no-compression") then false
  else negb (matches_media_extension (path req)).

(** *** The Express application *)

(** The stages of the pipeline, in the order of the specification. *)
Inductive stage :=
| BodyParsing
| CrossOrigin
| SecurityHeaders
| Compression
| TrustedProxy
| RateLimiting
| Sanitization
| Logging.

#[export] Instance stage_eq_dec : EqDecision stage.
Proof. solve_decision. Defined.

Record Response := {
  res_status : Z;
  res_body : value
}.

(** What one exchange leaves behind, oldest first. *)
Inductive event :=
| Enter (s : stage)
| Encoding (threshold : Z) (compress : bool)
| RotateLog
| RequestLog
| LoggerInfo (line : string)
| Respond (s : stage) (res : Response)
| Handler (req : Request).

(** The application settings a middleware can read through [req.app]. *)
Definition settings := gmap string (list string).

(** A middleware [(req, res, next) => ...]: given the request and the
    continuation [next], the events of the rest of the exchange. *)
Definition middleware := settings -> Request -> (Request -> list event) -> list event.

(** The calls made on an application while it is configured, oldest
    first: [app.use(fn)], with the stage [fn] implements, and
    [app.set(key, value)]. *)
Inductive app_call :=
| Use (s : stage) (fn : middleware)
| Set_ (key : string) (v : list string).

Definition Application := list app_call.

(** [express()] *)
Definition express : Application := [].

Definition app_use (s : stage) (fn : middleware) (app : Application) : Application :=
  (app ++ [Use s fn])%list.

Definition app_set (key : string) (v : list string) (app : Application) : Application :=
  (app ++ [Set_ key v])%list.

(** The router stack: the middleware in registration order. *)
Fixpoint stack (app : Application) : list (stage * middleware) :=
  match app with
  | [] => []
  | Use s fn :: rest => (s, fn) :: stack rest
  | Set_ _ _ :: rest => stack rest
  end.

(** The setting [app.set] compiles from [key] and stores next to it:
    [etag fn], [query parser fn] and [trust proxy fn]. *)
Definition compiled_setting (key : string) : option string :=
  if (key =? "etag") || (key =? "query parser") || (key =? "trust proxy")
  then Some (key ++ " fn")
  else None.

(** What [app.set(key, v)] writes: the setting itself and, for the three
    keys above, its compiled form, which stands here as the value it is
    compiled from. *)
Definition write_setting (key : string) (v : list string) (st : settings)
    : settings :=
  match compiled_setting key with
  | Some compiled => <[compiled := v]> (<[key := v]> st)
  | None => <[key := v]> st
  end.

(** [app.settings]: the last value written for each key. *)
Definition app_settings (app : Application) : settings :=
  fold_left (fun st call =>
               match call with
               | Use _ _ => st
               | Set_ k v => write_setting k v st
               end) app ∅.

(** The router: each layer is entered in turn and runs the rest of the
    stack only through its [next]; past the last layer the request
    reaches the route handler. *)
Fixpoint dispatch (layers : list (stage * middleware)) (st : settings)
    (req : Request) : list event :=
  match layers with
  | [] => [Handler req]
  | (s, fn) :: rest => Enter s :: fn st req (fun req' => dispatch rest st req')
  end.

(** [app.handle(req, res)] *)
Definition handle (app : Application) (req : Request) : list event :=
  dispatch (stack app) (app_settings app) req.

(** *** The collaborators *)

(** What a middleware defined outside this file does with a request: it
    passes it on, possibly rewritten, or ends the exchange with a
    response. *)
Inductive stage_result :=
| Next (req : Request)
| Terminate (res : Response).

Definition external := settings -> Request -> stage_result.

(** The middleware this file imports ([express.json], [cors], [helmet],
    [createRateLimiter], [sanitizeRequestData], [requestLog]) and the
    address resolution behind [req.ip]. The request is one object that the
    stages, the routers and the route handler may all rewrite:
    [request_when_logged] gives that object as it is when the call of
    [requestLog] returns, from the request the logging middleware
    received. *)
Record Collaborators := {
  express_json : external;
  cors : external;
  helmet : external;
  createRateLimiter : Z -> Z -> external;
  sanitizeRequestData : external;
  requestLog : external;
  request_when_logged : Request -> Request;
  proxyaddr : list string -> Request -> string
}.

Definition as_middleware (s : stage) (f : external) : middleware :=
  fun st req next =>
    match f st req with
    | Next req' => next req'
    | Terminate res => [Respond s res]
    end.

(** The options of [compression], and the middleware it returns: it wraps
    the response writer and calls [next] with the request as it is. The
    library asks [filter] when the headers of the response are written, on
    the request object as it is by then; [Encoding] records, where the
    middleware is entered, the answer of [filter] on the request it
    receives. *)
Record CompressionOptions := {
  threshold : Z;
  filter : Request -> bool
}.

Definition compression (options : CompressionOptions) : middleware :=
  fun st req next =>
    Encoding (threshold options) (filter options req) :: next req.

(** [req.ip]: the peer address unless the compiled [trust proxy] setting
    names trusted networks, from which [proxyaddr] resolves the client. *)
Definition req_ip (c : Collaborators) (st : settings) (req : Request) : string :=
  match st !! "trust proxy fn" with
  | Some trusted => proxyaddr c trusted req
  | None => remoteAddress req
  end.

(** The last middleware of [configureMiddleware]: the info line is built
    once [requestLog] has returned, from the request as it is then. *)
Definition log_request (c : Collaborators) : middleware :=
  fun st req next =>
    let logged := request_when_logged c req in
    (RotateLog
       :: RequestLog
       :: as_middleware Logging (requestLog c) st req next
       ++ [LoggerInfo (" " ++ method logged ++ " - " ++ url logged
                         ++ " - IP:  " ++ req_ip c st logged)])%list.

Definition configureMiddleware (c : Collaborators) (app : Application) : Application :=
  let app := app_use BodyParsing (as_middleware BodyParsing (express_json c)) app in
  let app := app_use CrossOrigin (as_middleware CrossOrigin (cors c)) app in
  let app := app_use SecurityHeaders (as_middleware SecurityHeaders (helmet c)) app in
  let app := app_use Compression
               (compression {| threshold := 1024; filter := compression_filter |}) app in
  let app := app_set "trust proxy" ["loopback"; "linklocal"; "uniquelocal"] app in
  let limiter := createRateLimiter c 15 100 in
  let app := app_use RateLimiting (as_middleware RateLimiting limiter) app in
  let app := app_use Sanitization (as_middleware Sanitization (sanitizeRequestData c)) app in
  let app := app_use Logging (log_request c) app in
  app.

(** *** Reading a trace *)

(** The stage a configuration call sets up; the one setting of the file
    is the trusted proxy. *)
Definition call_stage (call : app_call) : stage :=
  match call with
  | Use s _ => s
  | Set_ _ _ => TrustedProxy
  end.

(** The stages entered, in order. *)
Fixpoint entered (t : list event) : list stage :=
  match t with
  | [] => []
  | Enter s :: rest => s :: entered rest
  | _ :: rest => entered rest
  end.

(** The requests handed to the route handler. *)
Fixpoint handled (t : list event) : list Request :=
  match t with
  | [] => []
  | Handler r :: rest => r :: handled rest
  | _ :: rest => handled rest
  end.

(** The trace without the encoding decisions. *)
Fixpoint without_encoding (t : list event) : list event :=
  match t with
  | [] => []
  | Encoding _ _ :: rest => without_encoding rest
  | e :: rest => e :: without_encoding rest
  end.

(** The order of section 4.1 of the specification. *)
Definition pipeline_order : list stage :=
  [BodyParsing; CrossOrigin; SecurityHeaders; Compression; TrustedProxy;
   RateLimiting; Sanitization; Logging].

(** The stages that are middleware: the order but for the setting. *)
Definition middleware_order : list stage :=
  List.filter (fun s => negb (bool_decide (s = TrustedProxy))) pipeline_order.

(** The stages of [middleware_order] up to and including [s]. *)
Fixpoint through (s : stage) (l : list stage) : list stage :=
  match l with
  | [] => []
  | x :: rest => if bool_decide (x = s) then [x] else x :: through s rest
  end.

(** What the logging middleware itself leaves in a trace. *)
Definition is_log_event (e : event) : bool :=
  match e with
  | RotateLog | RequestLog | LoggerInfo _ => true
  | _ => false
  end.

(** *** The words of the specification *)

(** The request carries the header [name]. *)
Definition carries_header (req : Request) (name : string) : Prop :=
  is_Some (headers req !! name).

(** The request carries the header [name] with a value that is not empty. *)
Definition carries_nonempty_header (req : Request) (name : string) : Prop :=
  exists v, headers req !! name = Some v /\ v <> "".

(** [s] ends with a dot and one of the media extensions, whatever the case
    of its letters. *)
Definition ends_with_media_extension (s : string) : Prop :=
  exists stem tail ext,
    s = stem ++ tail /\
    ext ∈ media_extensions /\
    canonicalize_all tail = canonicalize_all ("." ++ ext).

(** *** Collaborators to try the definitions on *)

Definition pass_on : external := fun _ req => Next req.

(** Every stage passes the request on, but for the rate limiter when
    [deny] is set. *)
Definition sample_collaborators (deny : bool) : Collaborators :=
  {| express_json := pass_on;
     cors := pass_on;
     helmet := pass_on;
     createRateLimiter := fun _ _ _ req =>
       if deny
       then Terminate {| res_status := 429;
                         res_body := VString "Too many requests" |}
       else Next req;
     sanitizeRequestData := pass_on;
     requestLog := pass_on;
     request_when_logged := fun req => req;
     proxyaddr := fun _ req => remoteAddress req |}.

End ApiConfigMiddleware.


(* ================================================================== *)
(** ** The server: the SIGINT handler *)
(* ================================================================== *)

Module Server.
Import JS.

(** What the handler does to the process: [console.log],
    [bdd.$disconnect()], [server.close(...)] and [process.exit]. *)
Inductive event :=
| ConsoleLog (line : string)
| Disconnect
| ServerClose
| Exit (code : Z).

(** The handler installed by [process.on('SIGINT', ...)]. [disconnect] is
    how the promise of [bdd.$disconnect()] settles; [closed] tells whether
    the server ever finishes closing, which is when the callback given to
    [server.close] runs. The result is how the promise of the handler
    settles, with what was done, oldest first. *)
Definition on_SIGINT (disconnect : outcome unit) (closed : bool)
    : outcome unit * list event :=
  let begun := [ConsoleLog "Server shutdown..."; Disconnect] in
  match disconnect with
  | Throw e => (Throw e, begun)
  | Return _ =>
      (Return tt,
       (begun ++ ServerClose
          :: (if closed
              then [ConsoleLog "Server stopped successfully."; Exit 0]
              else []))%list)
  end.

End Server.


(* ================================================================== *)
(** ** Facts on the error translator *)
(* ================================================================== *)

Module ErrorHandlerFacts.
Import JS Express ErrorHandler.

(** *** Running the monad *)

Lemma written_nil w : written w [] = w.
Proof. destruct w; unfold written; simpl. by rewrite app_nil_r. Qed.

Lemma written_written w es es' :
  written (written w es) es' = written w (es ++ es').
Proof. unfold written; simpl. by rewrite <- app_assoc. Qed.

Lemma emit_run e w : emit e w = (Return tt, written w [e]).
Proof. reflexivity. Qed.

Lemma logError_run type req message errorMessage w :
  logError type req message errorMessage w
  = (Return tt, written w (log_lines w type req message errorMessage)).
Proof.
  unfold logError, mbind, M_bind, bind, now, emit, written, log_lines; simpl.
  by rewrite <- app_assoc.
Qed.

(** *** [JSON.stringify], one step at a time *)

Lemma serialize_array own r l :
  serialize own (VArray r l)
  = match serialize_items l with
    | Throw x => Throw x
    | Return ss => Return (Some ("[" ++ String.concat "," ss ++ "]"))
    end.
Proof. reflexivity. Qed.

Lemma serialize_object own r c props :
  serialize own (VObject r c props)
  = match (if own then serialize_toJSON props else None) with
    | Some o => o
    | None =>
        match serialize_members props with
        | Throw x => Throw x
        | Return ss => Return (Some ("{" ++ String.concat "," ss ++ "}"))
        end
    end.
Proof. reflexivity. Qed.

Lemma serialize_items_cons e rest :
  serialize_items (e :: rest)
  = match serialize true e with
    | Throw x => Throw x
    | Return o =>
        match serialize_items rest with
        | Throw x => Throw x
        | Return ss => Return (default "null" o :: ss)
        end
    end.
Proof. reflexivity. Qed.

Lemma serialize_members_cons k e rest :
  serialize_members ((k, e) :: rest)
  = match serialize true e with
    | Throw x => Throw x
    | Return o =>
        match serialize_members rest with
        | Throw x => Throw x
        | Return ss =>
            Return (match o with
                    | None => ss
                    | Some s => (quote k ++ ":" ++ s) :: ss
                    end)
        end
    end.
Proof. reflexivity. Qed.

Lemma serialize_toJSON_cons k e rest :
  serialize_toJSON ((k, e) :: rest)
  = if k =? "toJSON" then
      match e with
      | VFunction _ _ (Returns replacement) => Some (serialize false replacement)
      | VFunction _ _ (Raises x) => Some (Throw (Thrown x))
      | _ => None
      end
    else serialize_toJSON rest.
Proof. reflexivity. Qed.

Lemma JSON_stringify_returns v text :
  JSON_stringify v = Return text -> exists o, serialize true v = Return o.
Proof.
  unfold JSON_stringify. destruct (serialize true v) as [o|x]; [by eexists|discriminate].
Qed.

(** *** Sending the response *)

Lemma serialize_status status code :
  status_int32 status = Some code -> exists o, serialize true status = Return o.
Proof. destruct status as [| |[]| | | | | |]; try discriminate; by eexists. Qed.

(** The body serializes whenever its [error] does. *)
Lemma stringify_envelope status code error o :
  status_int32 status = Some code ->
  serialize true error = Return o ->
  exists text, JSON_stringify (envelope_value status error) = Return text.
Proof.
  intros [o1 Hstatus]%serialize_status Herror.
  unfold JSON_stringify, envelope_value.
  rewrite serialize_object, !serialize_toJSON_cons.
  change ("status" =? "toJSON") with false.
  change ("error" =? "toJSON") with false.
  cbn [serialize_toJSON].
  rewrite !serialize_members_cons, Hstatus, Herror. by eexists.
Qed.

Lemma sendErrorResponse_code res status code error text w :
  status_int32 status = Some code ->
  JSON_stringify (envelope_value status error) = Return text ->
  sendErrorResponse res status error w
  = if valid_status_code code
    then (Return tt,
          written w [ResStatus status;
                     ResJson {| env_status := status; env_error := error |}])
    else (Throw (InvalidStatusCode status), written w [ResStatus status]).
Proof.
  intros Hcode Hbody.
  unfold sendErrorResponse, mbind, M_bind, bind, lift, throw.
  rewrite emit_run, Hcode, Hbody.
  destruct (valid_status_code code); [|reflexivity].
  by rewrite emit_run, written_written.
Qed.

(** When the attempt to send returns, both writes of the response were made. *)
Lemma sendErrorResponse_returns res status error w w' :
  sendErrorResponse res status error w = (Return tt, w') ->
  w' = written w [ResStatus status;
                  ResJson {| env_status := status; env_error := error |}].
Proof.
  unfold sendErrorResponse, mbind, M_bind, bind, lift, throw.
  rewrite emit_run.
  destruct (status_int32 status) as [code|].
  - destruct (JSON_stringify (envelope_value status error)); [|discriminate].
    destruct (valid_status_code code); [|discriminate].
    rewrite emit_run, written_written. by intros [= <-].
  - destruct (json_with_other_status res status error); [|discriminate].
    rewrite emit_run, written_written. by intros [= <-].
Qed.

(** The outcome of the attempt and what it writes do not depend on what was
    written before. *)
Lemma sendErrorResponse_frame res status error :
  exists o es, forall w,
    sendErrorResponse res status error w = (o, written w es).
Proof.
  unfold sendErrorResponse, mbind, M_bind, bind, lift, throw.
  destruct (status_int32 status) as [code|].
  - destruct (JSON_stringify (envelope_value status error)).
    + destruct (valid_status_code code); eexists _, _; intros w;
        rewrite emit_run; [by rewrite emit_run, written_written|reflexivity].
    + eexists _, _; intros w; by rewrite emit_run.
  - destruct (json_with_other_status res status error) as [[]|x];
      eexists _, _; intros w; rewrite emit_run;
      [by rewrite emit_run, written_written|reflexivity].
Qed.

(** A string under a valid number is always sent. *)
Lemma send_string res n message w :
  valid_status_code (to_int32 n) = true ->
  sendErrorResponse res (VNumber n) (VString message) w
  = (Return tt,
     written w [ResStatus (VNumber n);
                ResJson {| env_status := VNumber n;
                           env_error := VString message |}]).
Proof.
  intros Hvalid.
  destruct (stringify_envelope (VNumber n) (to_int32 n) (VString message)
              (Some (quote message)) eq_refl eq_refl) as [text Htext].
  by rewrite (sendErrorResponse_code res (VNumber n) (to_int32 n) _ _ w eq_refl Htext),
    Hvalid.
Qed.

(** A log write, then the attempt to send. *)
Lemma log_then_send type req res message errorMessage status error w :
  (logError type req message errorMessage;;
   sendErrorResponse res status error) w
  = sendErrorResponse res status error
      (written w (log_lines w type req message errorMessage)).
Proof.
  unfold mbind, M_bind, bind at 1. by rewrite logError_run.
Qed.

Lemma log_then_send_string type req res message errorMessage n text w :
  valid_status_code (to_int32 n) = true ->
  (logError type req (VString message) errorMessage;;
   sendErrorResponse res (VNumber n) (VString text)) w
  = (Return tt,
     written w
       (answer w type req (VString message) errorMessage (VNumber n) (VString text))).
Proof.
  intros Hvalid. rewrite log_then_send, send_string by exact Hvalid.
  by rewrite written_written.
Qed.

(** *** The four branches *)

Lemma error_message_string error :
  instanceof_Error error = true -> exists m, get error "message" = VString m.
Proof.
  destruct error; try discriminate. destruct c; try discriminate; simpl; eauto.
Qed.

Lemma translated_status_valid error :
  valid_status_code (to_int32 (pm_status (getPrismaErrorMessage error))) = true.
Proof.
  unfold getPrismaErrorMessage.
  repeat (destruct (strict_equals _ _); [reflexivity|]). reflexivity.
Qed.

Section Branches.
Context (req : Request) (res : Response) (errorMessage : option string) (w : world).

Lemma handleError_storage error :
  classify error = StorageError ->
  handleError error req res errorMessage w
  = (Return tt,
     written w
       (answer w "Erreur Prisma" req
          (VString (pm_message (getPrismaErrorMessage error))) errorMessage
          (VNumber (pm_status (getPrismaErrorMessage error)))
          (VString (pm_message (getPrismaErrorMessage error))))).
Proof.
  unfold classify, handleError. fold (status_carrier error).
  destruct (instanceof_PrismaClientKnownRequestError error).
  - intros _. apply log_then_send_string, translated_status_valid.
  - destruct (status_carrier error); [discriminate|].
    destruct (instanceof_Error error); discriminate.
Qed.

Lemma handleError_validation error :
  classify error = ValidationError ->
  handleError error req res errorMessage w
  = match JSON_stringify (get error "error") with
    | Return text =>
        sendErrorResponse res (get error "status") (get error "error")
          (written w (log_lines w "Erreur de validation" req text errorMessage))
    | Throw x => (Throw x, w)
    end.
Proof.
  unfold classify, handleError. fold (status_carrier error).
  destruct (instanceof_PrismaClientKnownRequestError error); [discriminate|].
  destruct (status_carrier error).
  - intros _. simpl.
    unfold mbind at 1, M_bind at 1, bind at 1, lift.
    destruct (JSON_stringify (get error "error")); [|reflexivity].
    apply log_then_send.
  - destruct (instanceof_Error error); discriminate.
Qed.

(** The validation branch under a status whose reading cannot throw. *)
Lemma handleError_validation_code error code text :
  classify error = ValidationError ->
  status_int32 (get error "status") = Some code ->
  JSON_stringify (get error "error") = Return text ->
  handleError error req res errorMessage w
  = if valid_status_code code
    then (Return tt,
          written w
            (answer w "Erreur de validation" req text errorMessage
               (get error "status") (get error "error")))
    else (Throw (InvalidStatusCode (get error "status")),
          written w
            (log_lines w "Erreur de validation" req text errorMessage
               ++ [ResStatus (get error "status")])).
Proof.
  intros Hk Hstatus Htext.
  rewrite handleError_validation, Htext by exact Hk.
  destruct (JSON_stringify_returns _ _ Htext) as [o Ho].
  destruct (stringify_envelope _ _ _ _ Hstatus Ho) as [body Hbody].
  rewrite (sendErrorResponse_code _ _ _ _ _ _ Hstatus Hbody).
  destruct (valid_status_code code); by rewrite written_written.
Qed.

Lemma handleError_runtime error :
  classify error = RuntimeError ->
  handleError error req res errorMessage w
  = (Return tt,
     written w
       (answer w "Erreur serveur" req (get error "message") errorMessage
          (VNumber 500) (get error "message"))).
Proof.
  unfold classify, handleError. fold (status_carrier error).
  destruct (instanceof_PrismaClientKnownRequestError error); [discriminate|].
  destruct (status_carrier error); [discriminate|].
  destruct (instanceof_Error error) eqn:Herr; [|discriminate].
  intros _. destruct (error_message_string error Herr) as [m ->].
  by apply log_then_send_string.
Qed.

Lemma handleError_unknown error :
  classify error = UnknownError ->
  handleError error req res errorMessage w
  = (Return tt,
     written w
       (answer w "Erreur inconnue" req (VString "Erreur serveur inconnue")
          errorMessage (VNumber 500) (VString "Erreur serveur inconnue"))).
Proof.
  unfold classify, handleError. fold (status_carrier error).
  destruct (instanceof_PrismaClientKnownRequestError error); [discriminate|].
  destruct (status_carrier error); [discriminate|].
  destruct (instanceof_Error error); [discriminate|].
  intros _. by apply log_then_send_string.
Qed.

End Branches.

End ErrorHandlerFacts.

Module ErrorHandlerClaims.
Import JS Express ErrorHandler ErrorHandlerFacts.

(** *** Classification *)

Lemma strict_equals_string (v : value) (s : string) :
  strict_equals v (VString s) = true <-> v = VString s.
Proof.
  destruct v; simpl; try (split; [discriminate | discriminate]).
  rewrite String.eqb_eq. split; congruence.
Qed.

Lemma non_object_unknown v : non_object v -> classify v = UnknownError.
Proof.
  intros [H | ->]; [|reflexivity].
  destruct v; try reflexivity; simpl in H; congruence.
Qed.

Lemma status_carrier_object error :
  typeof error = "object" -> status_carrier error = has_property "status" error.
Proof.
  intros Hobj. unfold status_carrier. rewrite Hobj. by destruct error.
Qed.

Lemma accepted_status_code status :
  accepted_status status = true ->
  exists code, status_int32 status = Some code /\ valid_status_code code = true.
Proof.
  unfold accepted_status. destruct (status_int32 status) as [code|]; [|discriminate].
  intros H. by exists code.
Qed.

(** *** JSON.stringify on field errors *)

Lemma serialize_field_error v :
  is_field_error v = true -> exists s, serialize true v = Return (Some s).
Proof.
  destruct v as [| | | | | | |r l|r c props]; try discriminate.
  destruct c; try discriminate.
  destruct props as [|[k1 v1] props]; try discriminate.
  destruct v1; try discriminate.
  destruct props as [|[k2 v2] props]; try discriminate.
  destruct v2; try discriminate.
  destruct props; try discriminate.
  cbn [is_field_error].
  intros [[H1 H2]%andb_prop | [H1 H2]%andb_prop]%orb_prop;
    apply String.eqb_eq in H1 as ->; apply String.eqb_eq in H2 as ->;
    by eexists.
Qed.

Lemma serialize_field_errors l :
  forallb is_field_error l = true -> exists ss, serialize_items l = Return ss.
Proof.
  induction l as [|v l IH]; [by eexists|].
  cbn [forallb]. intros [Hv Hl]%andb_prop.
  destruct (serialize_field_error v Hv) as [s Hs].
  destruct (IH Hl) as [ss Hss].
  rewrite serialize_items_cons, Hs, Hss. by eexists.
Qed.

Lemma stringify_field_errors r l :
  forallb is_field_error l = true ->
  exists text, JSON_stringify (VArray r l) = Return (VString text).
Proof.
  intros H. destruct (serialize_field_errors l H) as [ss Hss].
  unfold JSON_stringify. rewrite serialize_array, Hss. eauto.
Qed.

(** *** Claims on the error translator *)

(** C2, as stated, fails: for the status 0, [throwError] throws the object
    [{status: 0, error: {message: m}}] and [handleError], after its log write,
    throws the error with which Node refuses the status code: no response is
    written. *)
Lemma throwError_invalid_status_counterexample :
  let payload := VObject 2 ObjectClass [("message", VString "gone")] in
  let thrown := VObject 1 ObjectClass [("status", VNumber 0); ("error", payload)] in
  let w' := {| next_ref := 3;
               formatDate_now := formatDate_now sample_world;
               trace := [] |} in
  throwError 0 "gone" sample_world = (Throw (Thrown thrown), w') /\
  (handleError thrown sample_request sample_response None w').1
  = Throw (InvalidStatusCode (VNumber 0)) /\
  responses (trace (handleError thrown sample_request sample_response None w').2)
  = [].
Proof. by repeat split. Qed.

(** C2, amended. For a status [s] Node accepts as a status code (its reading
    as a 32-bit integer is from 100 to 999), [throwError(s, m)] throws the
    object [{status: s, error: {message: m}}]; [handleError] takes the
    validation branch on it and writes the response
    [{status: s, error: {message: m}}], whose [error] is one object: neither a
    string nor an array of field errors. *)
Theorem throwError_then_handleError (s : Z) (m : string) (req : Request)
    (res : Response) (errorMessage : option string) (w : world) :
  valid_status_code (to_int32 s) = true ->
  let payload := VObject (N.succ (next_ref w)) ObjectClass [("message", VString m)] in
  let thrown := VObject (next_ref w) ObjectClass
                  [("status", VNumber s); ("error", payload)] in
  let w' := {| next_ref := N.succ (N.succ (next_ref w));
               formatDate_now := formatDate_now w;
               trace := trace w |} in
  let text := "{" ++ quote "message" ++ ":" ++ quote m ++ "}" in
  throwError s m w = (Throw (Thrown thrown), w') /\
  classify thrown = ValidationError /\
  handleError thrown req res errorMessage w'
  = (Return tt,
     written w'
       (answer w' "Erreur de validation" req (VString text) errorMessage
          (VNumber s) payload)) /\
  is_string payload = false /\
  is_array payload = false /\
  is_field_error_array payload = false.
Proof.
  intros Hvalid payload thrown w' text.
  split; [reflexivity|].
  split; [reflexivity|].
  split; [|by repeat split].
  rewrite (handleError_validation_code req res errorMessage w' thrown
             (to_int32 s) (VString text)) by reflexivity.
  by rewrite Hvalid.
Qed.

Lemma throwError_then_handleError_witness :
  let payload := VObject 2 ObjectClass [("message", VString "Utilisateur introuvable")] in
  let thrown := VObject 1 ObjectClass [("status", VNumber 404); ("error", payload)] in
  valid_status_code (to_int32 404) = true /\
  (throwError 404 "Utilisateur introuvable" sample_world).1 = Throw (Thrown thrown) /\
  responses
    (trace (handleError thrown sample_request sample_response None
              (throwError 404 "Utilisateur introuvable" sample_world).2).2)
  = [{| env_status := VNumber 404; env_error := payload |}].
Proof.
  intros payload thrown.
  assert (Hvalid : valid_status_code (to_int32 404) = true) by reflexivity.
  destruct (throwError_then_handleError 404 "Utilisateur introuvable"
              sample_request sample_response None sample_world Hvalid)
    as (Hthrow & _ & Hrun & _).
  split; [exact Hvalid|]. rewrite Hthrow. split; [reflexivity|].
  exact (f_equal (fun run => responses (trace run.2)) Hrun).
Defined.

(** C6. A value that is no object (a string, a number, [null], [undefined], a
    boolean, a bigint, a function) is answered with status 500 and the fixed
    text [Erreur serveur inconnue]; two such values get the same log lines and
    the same response, in which the value thrown does not appear. *)
Theorem unrecognized_value_generic_500 (v1 v2 : value) (req : Request)
    (res : Response) (errorMessage : option string) (w : world) :
  non_object v1 -> non_object v2 ->
  handleError v1 req res errorMessage w
  = (Return tt,
     written w
       (answer w "Erreur inconnue" req (VString "Erreur serveur inconnue")
          errorMessage (VNumber 500) (VString "Erreur serveur inconnue"))) /\
  handleError v1 req res errorMessage w = handleError v2 req res errorMessage w.
Proof.
  intros H1%non_object_unknown H2%non_object_unknown.
  rewrite !handleError_unknown by assumption. by split.
Qed.

Lemma unrecognized_value_generic_500_witness :
  non_object (VString "boom") /\ non_object (VNumber 42) /\
  responses
    (trace (handleError (VString "boom") sample_request sample_response None
              sample_world).2)
  = [{| env_status := VNumber 500;
        env_error := VString "Erreur serveur inconnue" |}] /\
  handleError (VString "boom") sample_request sample_response None sample_world
  = handleError (VNumber 42) sample_request sample_response None sample_world.
Proof.
  assert (H1 : non_object (VString "boom")) by (left; discriminate).
  assert (H2 : non_object (VNumber 42)) by (left; discriminate).
  destruct (unrecognized_value_generic_500 _ _ sample_request sample_response
              None sample_world H1 H2) as [Hrun Hsame].
  split; [exact H1|]. split; [exact H2|]. split; [|exact Hsame].
  rewrite Hrun. reflexivity.
Defined.

(** C7, as stated, fails: on the validation-shaped input
    [{status: 0, error: [{field, message}]}] no response carries the status
    and the array: after its log write [handleError] throws the error with
    which Node refuses the status code, and nothing is sent. *)
Lemma validation_invalid_status_counterexample :
  let entries :=
    [VObject 3 ObjectClass [("field", VString "email"); ("message", VString "required")]] in
  let error := VObject 1 ObjectClass
                 [("status", VNumber 0); ("error", VArray 2 entries)] in
  validation_shaped error = true /\
  (handleError error sample_request sample_response None sample_world).1
  = Throw (InvalidStatusCode (VNumber 0)) /\
  responses
    (trace (handleError error sample_request sample_response None sample_world).2)
  = [].
Proof. by repeat split. Qed.

(** C7, amended. On a validation-shaped input
    [{status, error: [{field, message}...]}] whose status Node accepts as a
    status code (from 100 to 999) the response carries the status of the input
    and its [error] array itself: the same array (same identity), hence the
    same entries in the same order. *)
Theorem validation_passthrough (error : value) (req : Request) (res : Response)
    (errorMessage : option string) (w : world) :
  validation_shaped error = true ->
  accepted_status (get error "status") = true ->
  exists (status : Z) (r : ref) (entries : list value) (text : string),
    get error "status" = VNumber status /\
    get error "error" = VArray r entries /\
    forallb is_field_error entries = true /\
    handleError error req res errorMessage w
    = (Return tt,
       written w
         (answer w "Erreur de validation" req (VString text) errorMessage
            (VNumber status) (VArray r entries))) /\
    strict_equals (VArray r entries) (get error "error") = true.
Proof.
  intros Hshape Haccepted.
  assert (Hclass : classify error = ValidationError).
  { destruct error as [| | | | | | | |r c props]; try discriminate.
    destruct c; try discriminate.
    unfold validation_shaped in Hshape.
    unfold classify, status_carrier. simpl. simpl in Hshape.
    destruct (assoc "status" props); [reflexivity|discriminate]. }
  destruct (accepted_status_code _ Haccepted) as (code & Hcode & Hvalid).
  unfold validation_shaped in Hshape.
  destruct error as [| | | | | | | |r0 c props]; try discriminate.
  destruct c; try discriminate.
  destruct (get (VObject r0 ObjectClass props) "status") as [| | |status| | | | |] eqn:Hs;
    try discriminate.
  destruct (get (VObject r0 ObjectClass props) "error") as [| | | | | | |r entries|] eqn:He;
    try discriminate.
  simpl in Hshape.
  destruct (stringify_field_errors r entries Hshape) as [text Htext].
  exists status, r, entries, text.
  repeat split; try done.
  - rewrite (handleError_validation_code req res errorMessage w _ code (VString text))
      by (rewrite ?Hs, ?He; done).
    by rewrite Hvalid, Hs, He.
  - simpl. apply N.eqb_refl.
Qed.

Lemma validation_passthrough_witness :
  let entries :=
    [VObject 3 ObjectClass [("field", VString "email"); ("message", VString "required")];
     VObject 4 ObjectClass [("field", VString "age"); ("message", VString "must be a number")]] in
  let error := VObject 1 ObjectClass
                 [("status", VNumber 400); ("error", VArray 2 entries)] in
  validation_shaped error = true /\
  accepted_status (get error "status") = true /\
  responses
    (trace (handleError error sample_request sample_response None sample_world).2)
  = [{| env_status := VNumber 400; env_error := VArray 2 entries |}].
Proof.
  intros entries error.
  assert (H : validation_shaped error = true) by reflexivity.
  assert (Ha : accepted_status (get error "status") = true) by reflexivity.
  split; [exact H|]. split; [exact Ha|].
  destruct (validation_passthrough error sample_request sample_response None
              sample_world H Ha)
    as (status & r & es & text & Hs & He & _ & Hrun & _).
  rewrite Hrun. simpl.
  injection Hs as <-. injection He as <- <-. reflexivity.
Defined.

(** C5, as stated, fails: a native [Error] that carries a [status] property is
    taken by the validation branch, which answers with that status and with
    the absent [error] property, not with 500 and the message of the error. *)
Lemma native_error_with_status_counterexample :
  let error := VObject 1 (ErrorClass "boom") [("status", VNumber 418)] in
  instanceof_Error error = true /\
  instanceof_PrismaClientKnownRequestError error = false /\
  responses
    (trace (handleError error sample_request sample_response None sample_world).2)
  = [{| env_status := VNumber 418; env_error := VUndefined |}] /\
  responses
    (trace (handleError error sample_request sample_response None sample_world).2)
  <> [{| env_status := VNumber 500; env_error := VString "boom" |}].
Proof. repeat split; discriminate. Qed.

(** C5, amended. A native [Error] that is no storage-engine known error and
    carries no [status] property is answered with status 500 and its own
    message. *)
Theorem native_error_500_own_message (r : ref) (message : string)
    (props : list (string * value)) (req : Request) (res : Response)
    (errorMessage : option string) (w : world) :
  has_property "status" (VObject r (ErrorClass message) props) = false ->
  handleError (VObject r (ErrorClass message) props) req res errorMessage w
  = (Return tt,
     written w
       (answer w "Erreur serveur" req (VString message) errorMessage
          (VNumber 500) (VString message))).
Proof.
  intros Hstatus.
  rewrite handleError_runtime; [reflexivity|].
  unfold classify, status_carrier. rewrite Hstatus. reflexivity.
Qed.

Lemma native_error_500_own_message_witness :
  has_property "status" (VObject 1 (ErrorClass "boom") [("cause", VNull)]) = false /\
  responses
    (trace (handleError (VObject 1 (ErrorClass "boom") [("cause", VNull)])
              sample_request sample_response (Some "while saving") sample_world).2)
  = [{| env_status := VNumber 500; env_error := VString "boom" |}].
Proof.
  split; [reflexivity|].
  rewrite (native_error_500_own_message 1%N "boom" [("cause", VNull)]
             sample_request sample_response (Some "while saving") sample_world
             eq_refl).
  reflexivity.
Defined.

(** C1, as stated, fails: a plain object with nothing but a [status] field,
    and a native [Error] with an added [status] property, are non-null objects
    without the validation shape, and [handleError] logs and answers both
    through the validation branch. *)
Lemma status_only_counterexample :
  let plain := VObject 1 ObjectClass [("status", VNumber 400)] in
  let native := VObject 2 (ErrorClass "boom") [("status", VNumber 418)] in
  (typeof plain = "object" /\ plain <> VNull /\ validation_shaped plain = false /\
   classify plain = ValidationError /\
   log_writes
     (trace (handleError plain sample_request sample_response None sample_world).2)
   = [logger_line (label ValidationError) sample_request VUndefined None]) /\
  (typeof native = "object" /\ native <> VNull /\ validation_shaped native = false /\
   classify native = ValidationError /\
   log_writes
     (trace (handleError native sample_request sample_response None sample_world).2)
   = [logger_line (label ValidationError) sample_request VUndefined None]).
Proof. repeat split; discriminate. Qed.

(** C1, amended. What the second branch tests is the presence of a [status]
    property. A non-null object without one is never taken as a validation
    error: [handleError] answers it through another branch, with a string. A
    non-null object with one, unless it is a storage-engine known error, is
    always taken as a validation error, whatever else it holds:
    [handleError] serializes its [error] property, logs the result under the
    validation label and sends its [status] and [error] as they are. *)
Theorem validation_iff_status (error : value) :
  typeof error = "object" -> error <> VNull ->
  (has_property "status" error = false -> classify error <> ValidationError) /\
  (instanceof_PrismaClientKnownRequestError error = false ->
   has_property "status" error = true -> classify error = ValidationError) /\
  (forall req res errorMessage w,
     has_property "status" error = false ->
     exists k message status,
       k <> ValidationError /\
       handleError error req res errorMessage w
       = (Return tt,
          written w
            (answer w (label k) req (VString message) errorMessage
               (VNumber status) (VString message)))) /\
  (forall req res errorMessage w,
     instanceof_PrismaClientKnownRequestError error = false ->
     has_property "status" error = true ->
     handleError error req res errorMessage w
     = match JSON_stringify (get error "error") with
       | Return text =>
           sendErrorResponse res (get error "status") (get error "error")
             (written w
                [ConsoleError
                   (console_line (formatDate_now w) "Erreur de validation" text
                      errorMessage);
                 LoggerError
                   (logger_line "Erreur de validation" req text errorMessage)])
       | Throw x => (Throw x, w)
       end).
Proof.
  intros Hobj Hnull.
  pose proof (status_carrier_object error Hobj) as Hcarrier.
  assert (Hyes : instanceof_PrismaClientKnownRequestError error = false ->
                 has_property "status" error = true ->
                 classify error = ValidationError).
  { intros Hprisma Hstatus. unfold classify.
    by rewrite Hprisma, Hcarrier, Hstatus. }
  assert (Hno : has_property "status" error = false ->
                classify error <> ValidationError).
  { intros Hstatus. unfold classify. rewrite Hcarrier, Hstatus.
    destruct (instanceof_PrismaClientKnownRequestError error); [discriminate|].
    destruct (instanceof_Error error); discriminate. }
  split; [exact Hno|]. split; [exact Hyes|]. split.
  - intros req res errorMessage w Hstatus.
    destruct (classify error) eqn:Hk.
    + exists StorageError. eexists _, _. split; [discriminate|].
      by apply handleError_storage.
    + by destruct (Hno Hstatus).
    + assert (Herr : instanceof_Error error = true).
      { revert Hk. unfold classify.
        destruct (instanceof_PrismaClientKnownRequestError error); [discriminate|].
        destruct (status_carrier error); [discriminate|].
        by destruct (instanceof_Error error). }
      destruct (error_message_string error Herr) as [m Hm].
      exists RuntimeError, m, 500%Z. split; [discriminate|].
      rewrite handleError_runtime by exact Hk. by rewrite Hm.
    + exists UnknownError. eexists _, _. split; [discriminate|].
      by apply handleError_unknown.
  - intros req res errorMessage w Hprisma Hstatus.
    by rewrite handleError_validation by (by apply Hyes).
Qed.

Lemma validation_iff_status_witness :
  let error := VObject 1 ObjectClass [("status", VNumber 400)] in
  typeof error = "object" /\ error <> VNull /\
  instanceof_PrismaClientKnownRequestError error = false /\
  has_property "status" error = true /\
  classify error = ValidationError /\
  log_writes
    (trace (handleError error sample_request sample_response None sample_world).2)
  = [logger_line "Erreur de validation" sample_request VUndefined None] /\
  responses
    (trace (handleError error sample_request sample_response None sample_world).2)
  = [{| env_status := VNumber 400; env_error := VUndefined |}].
Proof.
  intros error.
  assert (Hobj : typeof error = "object") by reflexivity.
  assert (Hnull : error <> VNull) by discriminate.
  destruct (validation_iff_status error Hobj Hnull) as (_ & Hyes & _ & Hrun).
  split; [exact Hobj|]. split; [exact Hnull|].
  split; [reflexivity|]. split; [reflexivity|].
  split; [exact (Hyes eq_refl eq_refl)|].
  rewrite (Hrun sample_request sample_response None sample_world eq_refl eq_refl).
  by split.
Defined.

(** X1. For every error value not taken by the validation branch, and for
    every one taken by it whose [error] property [JSON.stringify] accepts (a
    [toJSON] method in it answering the same at every call) and whose [status]
    is a number Node accepts as a status code (from 100 to 999),
    [handleError] returns after one complete answer: exactly one record to the
    log sink, followed by exactly one response. *)
Theorem handleError_one_answer (error : value) (req : Request) (res : Response)
    (errorMessage : option string) (w : world) :
  (classify error = ValidationError ->
   accepted_status (get error "status") = true /\
   exists text, JSON_stringify (get error "error") = Return text) ->
  exists message status body,
    handleError error req res errorMessage w
    = (Return tt,
       written w
         (answer w (label (classify error)) req message errorMessage status body)) /\
    log_writes (answer w (label (classify error)) req message errorMessage status body)
    = [logger_line (label (classify error)) req message errorMessage] /\
    responses (answer w (label (classify error)) req message errorMessage status body)
    = [{| env_status := status; env_error := body |}].
Proof.
  intros Hjson. destruct (classify error) eqn:Hk.
  - eexists _, _, _. split; [by apply handleError_storage|by split].
  - destruct (Hjson eq_refl) as [Haccepted [text Htext]].
    destruct (accepted_status_code _ Haccepted) as (code & Hcode & Hvalid).
    exists text, (get error "status"), (get error "error").
    rewrite (handleError_validation_code req res errorMessage w error code text)
      by assumption.
    rewrite Hvalid. by repeat split.
  - eexists _, _, _. split; [by apply handleError_runtime|by split].
  - eexists _, _, _. split; [by apply handleError_unknown|by split].
Qed.

Lemma handleError_one_answer_witness :
  let error := VObject 1 ObjectClass [("status", VNumber 422); ("error", VArray 2 [])] in
  (classify error = ValidationError ->
   accepted_status (get error "status") = true /\
   exists text, JSON_stringify (get error "error") = Return text) /\
  exists message status body,
    handleError error sample_request sample_response None sample_world
    = (Return tt,
       written sample_world
         (answer sample_world "Erreur de validation" sample_request message None
            status body)).
Proof.
  intros error.
  assert (H : classify error = ValidationError ->
              accepted_status (get error "status") = true /\
              exists text, JSON_stringify (get error "error") = Return text)
    by (intros _; split; [reflexivity|eexists; reflexivity]).
  split; [exact H|].
  destruct (handleError_one_answer error sample_request sample_response None
              sample_world H)
    as (message & status & body & Hrun & _).
  by exists message, status, body.
Defined.

(** C3, as stated, fails: the value [throwError] throws is classified as a
    validation error and the [error] of the response is a single object, not a
    sequence of field errors; for an object with nothing but a [status], the
    response has no [error] at all. *)
Lemma envelope_not_a_sequence_counterexample :
  let payload := VObject 2 ObjectClass [("message", VString "Utilisateur introuvable")] in
  let thrown := VObject 1 ObjectClass [("status", VNumber 404); ("error", payload)] in
  let bare := VObject 3 ObjectClass [("status", VNumber 400)] in
  classify thrown = ValidationError /\
  responses
    (trace (handleError thrown sample_request sample_response None sample_world).2)
  = [{| env_status := VNumber 404; env_error := payload |}] /\
  is_field_error_array payload = false /\
  classify bare = ValidationError /\
  responses
    (trace (handleError bare sample_request sample_response None sample_world).2)
  = [{| env_status := VNumber 400; env_error := VUndefined |}] /\
  is_field_error_array VUndefined = false.
Proof. by repeat split. Qed.

(** C3, amended. The [error] of the response is a single string when the
    error is classified as a storage, runtime or unknown error. When it is
    classified as a validation error, a response that is written carries the
    [status] and the [error] property of the input unchanged, whatever they
    hold; and the response is written, with a sequence of field errors as its
    [error], when the input holds one under a [status] Node accepts as a
    status code (from 100 to 999). *)
Theorem envelope_error_shape (error : value) (req : Request) (res : Response)
    (errorMessage : option string) (w : world) :
  (classify error <> ValidationError ->
   exists (status : Z) (message : string),
     handleError error req res errorMessage w
     = (Return tt,
        written w
          (answer w (label (classify error)) req (VString message) errorMessage
             (VNumber status) (VString message)))) /\
  (classify error = ValidationError ->
   forall w', handleError error req res errorMessage w = (Return tt, w') ->
   exists text,
     w' = written w
            (answer w "Erreur de validation" req text errorMessage
               (get error "status") (get error "error"))) /\
  (classify error = ValidationError ->
   is_field_error_array (get error "error") = true ->
   accepted_status (get error "status") = true ->
   exists text,
     handleError error req res errorMessage w
     = (Return tt,
        written w
          (answer w "Erreur de validation" req text errorMessage
             (get error "status") (get error "error")))).
Proof.
  split; [|split].
  - intros Hk. destruct (classify error) eqn:Hc; [|done| |].
    + eexists _, _. by apply handleError_storage.
    + assert (Herr : instanceof_Error error = true).
      { revert Hc. unfold classify.
        destruct (instanceof_PrismaClientKnownRequestError error); [discriminate|].
        destruct (status_carrier error); [discriminate|].
        by destruct (instanceof_Error error). }
      destruct (error_message_string error Herr) as [m Hm].
      exists 500%Z, m. rewrite handleError_runtime by exact Hc. by rewrite Hm.
    + eexists _, _. by apply handleError_unknown.
  - intros Hk w'. rewrite handleError_validation by exact Hk.
    destruct (JSON_stringify (get error "error")) as [text|x]; [|discriminate].
    intros Hsent. exists text.
    by apply (sendErrorResponse_returns res (get error "status") (get error "error")) in Hsent
      as ->; rewrite written_written.
  - intros Hk Harr Haccepted. 
    destruct (accepted_status_code _ Haccepted) as (code & Hcode & Hvalid).
    destruct (get error "error") as [| | | | | | |r entries|] eqn:He; try discriminate.
    destruct (stringify_field_errors r entries Harr) as [text Htext].
    exists (VString text).
    rewrite (handleError_validation_code req res errorMessage w error code (VString text))
      by (rewrite ?He; assumption).
    by rewrite Hvalid, He.
Qed.

Lemma envelope_error_shape_witness :
  let native := VObject 1 (ErrorClass "connection lost") [] in
  let entries :=
    [VObject 4 ObjectClass [("field", VString "email"); ("message", VString "required")]] in
  let shaped := VObject 2 ObjectClass
                   [("status", VNumber 422); ("error", VArray 3 entries)] in
  (classify native <> ValidationError /\
   exists (status : Z) (message : string),
     handleError native sample_request sample_response None sample_world
     = (Return tt,
        written sample_world
          (answer sample_world "Erreur serveur" sample_request (VString message) None
             (VNumber status) (VString message)))) /\
  (classify shaped = ValidationError /\
   is_field_error_array (get shaped "error") = true /\
   accepted_status (get shaped "status") = true /\
   exists text,
     handleError shaped sample_request sample_response None sample_world
     = (Return tt,
        written sample_world
          (answer sample_world "Erreur de validation" sample_request text None
             (VNumber 422) (VArray 3 entries)))).
Proof.
  intros native entries shaped. split.
  - assert (H : classify native <> ValidationError) by discriminate.
    split; [exact H|].
    exact (proj1 (envelope_error_shape native sample_request sample_response None
                    sample_world) H).
  - split; [reflexivity|]. split; [reflexivity|]. split; [reflexivity|].
    exact (proj2 (proj2 (envelope_error_shape shaped sample_request
                           sample_response None sample_world))
             eq_refl eq_refl eq_refl).
Defined.

(** C8 does not hold of the code: on an object with a [status] whose [error]
    property holds a BigInt, the validation branch calls [JSON.stringify]
    before anything is written; the call raises a [TypeError], which leaves
    [handleError] with no log write and no response write. *)
Theorem handleError_throws_on_bigint (req : Request) (res : Response)
    (errorMessage : option string) (w : world) :
  handleError (VObject 1 ObjectClass [("status", VNumber 400); ("error", VBigInt 10)])
    req res errorMessage w
  = (Throw (TypeError "Do not know how to serialize a BigInt"), w).
Proof. reflexivity. Qed.

(** C4. For a storage-engine known error, [getPrismaErrorMessage] yields 400
    for [P2002], with a message that names the [target] of the error metadata
    and falls back to [inconnu] when there is none; 400 for [P2003]; 404 for
    [P2025]; 500 and the generic storage message for any other code; and
    [handleError] answers with that status and that message. *)
Theorem prisma_known_error_translation (error : value) :
  instanceof_PrismaClientKnownRequestError error = true ->
  let target := get_optional (get error "meta") "target" in
  let translated := getPrismaErrorMessage error in
  (get error "code" = VString "P2002" ->
   pm_status translated = 400%Z /\
   (truthy target = true ->
    pm_message translated
    = "Erreur : le champ " ++ to_string target
        ++ " doit être unique. La valeur fournie est déjà utilisée.") /\
   (truthy target = false ->
    pm_message translated
    = "Erreur : le champ inconnu doit être unique. La valeur fournie est déjà utilisée.")) /\
  (get error "code" = VString "P2003" ->
   pm_status translated = 400%Z /\
   pm_message translated
   = "Erreur : violation de contrainte de clé étrangère. Veuillez vérifier les références.") /\
  (get error "code" = VString "P2025" ->
   pm_status translated = 404%Z /\
   pm_message translated
   = "Erreur : Une opération a échoué car elle dépend d'un ou plusieurs enregistrements requis mais introuvables.") /\
  (get error "code" <> VString "P2002" ->
   get error "code" <> VString "P2003" ->
   get error "code" <> VString "P2025" ->
   pm_status translated = 500%Z /\
   pm_message translated
   = "Erreur serveur : une erreur Prisma inconnue s'est produite.") /\
  (forall req res errorMessage w,
     handleError error req res errorMessage w
     = (Return tt,
        written w
          (answer w "Erreur Prisma" req (VString (pm_message translated)) errorMessage
             (VNumber (pm_status translated)) (VString (pm_message translated))))).
Proof.
  intros Hprisma target translated.
  repeat apply conj.
  - intros Hcode. subst translated. unfold getPrismaErrorMessage.
    rewrite Hcode. simpl. split; [reflexivity|].
    fold target. unfold or_else.
    split; intros ->; reflexivity.
  - intros Hcode. subst translated. unfold getPrismaErrorMessage.
    rewrite Hcode. by split.
  - intros Hcode. subst translated. unfold getPrismaErrorMessage.
    rewrite Hcode. by split.
  - intros H2 H3 H5. subst translated. unfold getPrismaErrorMessage.
    destruct (strict_equals (get error "code") (VString "P2002")) eqn:E2;
      [by apply strict_equals_string in E2|].
    destruct (strict_equals (get error "code") (VString "P2003")) eqn:E3;
      [by apply strict_equals_string in E3|].
    destruct (strict_equals (get error "code") (VString "P2025")) eqn:E5;
      [by apply strict_equals_string in E5|].
    by split.
  - intros req res errorMessage w. apply handleError_storage.
    unfold classify. by rewrite Hprisma.
Qed.

Lemma prisma_known_error_translation_witness :
  let error :=
    VObject 1 (PrismaClientKnownRequestError "Unique constraint failed")
      [("code", VString "P2002");
       ("meta", VObject 2 ObjectClass [("target", VString "email")])] in
  instanceof_PrismaClientKnownRequestError error = true /\
  pm_status (getPrismaErrorMessage error) = 400%Z /\
  pm_message (getPrismaErrorMessage error)
  = "Erreur : le champ email doit être unique. La valeur fournie est déjà utilisée.".
Proof.
  intros error.
  assert (H : instanceof_PrismaClientKnownRequestError error = true) by reflexivity.
  destruct (prisma_known_error_translation error H) as [Hunique _].
  destruct (Hunique eq_refl) as (Hstatus & Hnamed & _).
  split; [exact H|]. split; [exact Hstatus|].
  exact (Hnamed eq_refl).
Defined.

End ErrorHandlerClaims.


(* ================================================================== *)
(** ** Facts on the middleware pipeline *)
(* ================================================================== *)

Module ApiConfigMiddlewareClaims.
Import JS Express ApiConfigMiddleware.

(** *** The compression filter *)

Lemma matches_at_end_iff pattern s :
  matches_at_end pattern s = true
  <-> exists stem tail,
        s = stem ++ tail /\ canonicalize_all tail = canonicalize_all pattern.
Proof.
  split.
  - induction s as [|c s IH]; cbn [matches_at_end].
    + rewrite orb_false_r. intros H%String.eqb_eq.
      by exists "", "".
    + intros [H%String.eqb_eq | H]%orb_prop.
      * by exists "", (String c s).
      * destruct (IH H) as (stem & tail & -> & Htail).
        by exists (String c stem), tail.
  - intros (stem & tail & -> & Htail).
    induction stem as [|c stem IH].
    + change ("" ++ tail) with tail.
      destruct tail; cbn [matches_at_end]; apply orb_true_iff; left;
        by apply String.eqb_eq.
    + change (String c stem ++ tail) with (String c (stem ++ tail)).
      cbn [matches_at_end]. apply orb_true_iff. by right.
Qed.

Lemma matches_media_extension_iff s :
  matches_media_extension s = true <-> ends_with_media_extension s.
Proof.
  unfold matches_media_extension, ends_with_media_extension.
  rewrite existsb_exists. split.
  - intros (ext & Hin & (stem & tail & -> & Htail)%matches_at_end_iff).
    exists stem, tail, ext. by rewrite list_elem_of_In.
  - intros (stem & tail & ext & -> & Hin & Htail).
    exists ext. rewrite <- list_elem_of_In. split; [done|].
    apply matches_at_end_iff. by exists stem, tail.
Qed.

Lemma truthy_header_iff req name :
  truthy (header req name) = true <-> carries_nonempty_header req name.
Proof.
  unfold header, carries_nonempty_header.
  destruct (headers req !! name) as [v|]; simpl.
  - rewrite negb_true_iff, String.eqb_neq. split.
    + intros H. by exists v.
    + by intros (v' & [= <-] & H).
  - split; [discriminate|]. by intros (v & [=] & _).
Qed.


(** C10, as stated, fails: a request that carries the override header with an
    empty value, on a path with no media extension, is not skipped. *)
Lemma empty_override_header_counterexample :
  let req := {| method := "GET";
                originalUrl := "/api/users";
                url := "/api/users";
                path := "/api/users";
                headers := {["x-no-compression" := ""]};
                remoteAddress := "127.0.0.1";
                body := VUndefined |} in
  carries_header req "x-no-compression" /\
  compression_filter req = true /\
  ~ (compression_filter req = false
     <-> carries_header req "x-no-compression"
         \/ ends_with_media_extension (path req)).
Proof.
  intros req.
  assert (Hcarries : carries_header req "x-no-compression").
  { unfold carries_header. simpl. rewrite lookup_singleton_eq. by eexists. }
  assert (Hfilter : compression_filter req = true) by reflexivity.
  split; [exact Hcarries|]. split; [exact Hfilter|].
  intros [_ Hskip]. rewrite Hskip in Hfilter; [discriminate|by left].
Qed.

(** C10, amended. The filter answers skip exactly when the request carries the
    override header [x-no-compression] with a value that is not empty, or the
    path ends with a dot and one of jpg, jpeg, png, gif, pdf, svg, mp4 in any
    letter case; and the compression middleware hands the request unchanged to
    the next stage whatever the answer, which only shows in the encoding
    decision. *)
Theorem compression_filter_skips_iff (req : Request) :
  (compression_filter req = false
   <-> carries_nonempty_header req "x-no-compression"
       \/ ends_with_media_extension (path req)) /\
  (forall (st : settings) (next : Request -> list event),
     compression {| threshold := 1024; filter := compression_filter |} st req next
     = Encoding 1024 (compression_filter req) :: next req) /\
  (forall (options : CompressionOptions) (st : settings)
          (next : Request -> list event),
     without_encoding (compression options st req next)
     = without_encoding (next req)).
Proof.
  split; [|by split].
  unfold compression_filter.
  rewrite <- truthy_header_iff, <- matches_media_extension_iff.
  destruct (truthy (header req "x-no-compression")).
  - split; [by left|done].
  - rewrite negb_false_iff. split; [by right|].
    by intros [?|?].
Qed.

(** *** The order of the stages *)

Lemma trust_proxy_configured c :
  app_settings (configureMiddleware c express) !! "trust proxy fn"
  = Some ["loopback"; "linklocal"; "uniquelocal"].
Proof. reflexivity. Qed.

Ltac member_cases H :=
  repeat (apply elem_of_cons in H as [H|H]; [try discriminate|]);
  try (by apply elem_of_nil in H).

(** C9. [configureMiddleware] sets the application up in the order body
    parsing, cross-origin check, security headers, compression, trusted
    proxy, rate limiting, sanitization, logging, the trusted proxy being a
    setting in force for every request. For every request the middleware are
    entered in that order; as soon as one ends the exchange, none of the later
    ones is entered and the route handler does not run; the handler runs, once,
    only when every stage has passed the request on. *)
Theorem pipeline_fixed_order (c : Collaborators) (req : Request) :
  let app := configureMiddleware c express in
  let t := handle app req in
  app = [Use BodyParsing (as_middleware BodyParsing (express_json c));
         Use CrossOrigin (as_middleware CrossOrigin (cors c));
         Use SecurityHeaders (as_middleware SecurityHeaders (helmet c));
         Use Compression
           (compression {| threshold := 1024; filter := compression_filter |});
         Set_ "trust proxy" ["loopback"; "linklocal"; "uniquelocal"];
         Use RateLimiting (as_middleware RateLimiting (createRateLimiter c 15 100));
         Use Sanitization (as_middleware Sanitization (sanitizeRequestData c));
         Use Logging (log_request c)] /\
  map call_stage app = pipeline_order /\
  app_settings app !! "trust proxy" = Some ["loopback"; "linklocal"; "uniquelocal"] /\
  entered t `prefix_of` middleware_order /\
  (forall s res, Respond s res ∈ t ->
     entered t = through s middleware_order /\ handled t = []) /\
  ((forall s res, Respond s res ∉ t) ->
     entered t = middleware_order /\ exists req', handled t = [req']) /\
  (forall line, LoggerInfo line ∈ t ->
     exists req',
       line = " " ++ method req' ++ " - " ++ url req' ++ " - IP:  "
                ++ proxyaddr c ["loopback"; "linklocal"; "uniquelocal"] req').
Proof.
  intros app t.
  split; [reflexivity|]. split; [reflexivity|]. split; [reflexivity|].
  subst t. unfold handle.
  assert (Hst : app_settings app !! "trust proxy fn"
                = Some ["loopback"; "linklocal"; "uniquelocal"]) by reflexivity.
  set (st := app_settings app) in *. clearbody st.
  subst app. cbn [configureMiddleware express app_use app_set app stack dispatch].
  unfold compression, log_request, req_ip. rewrite Hst.
  lazy beta iota delta [as_middleware].
  repeat match goal with
         | |- context [match ?x with Next _ => _ | Terminate _ => _ end] =>
             destruct x as [?r|?res]; lazy beta iota
         end.
  all: cbn [entered handled app].
  all: (split; [by eexists|]).
  all: (split; [intros s res' H; member_cases H;
             try (injection H as -> ->; split; reflexivity)|]).
  all: (split; [intros Hnone;
                 first [ split; [reflexivity | eexists; reflexivity]
                       | exfalso; eapply Hnone;
                         repeat first [apply list_elem_of_here
                                      | apply list_elem_of_further] ]|]).
  all: intros line H; member_cases H.
  all: injection H as ->; eexists; reflexivity.
Qed.

Lemma pipeline_fixed_order_witness :
  let t := handle (configureMiddleware (sample_collaborators true) express)
             sample_request in
  Respond RateLimiting {| res_status := 429;
                          res_body := VString "Too many requests" |} ∈ t /\
  entered t = [BodyParsing; CrossOrigin; SecurityHeaders; Compression; RateLimiting] /\
  handled t = [].
Proof.
  intros t.
  assert (H : Respond RateLimiting {| res_status := 429;
                res_body := VString "Too many requests" |} ∈ t).
  { subst t. vm_compute. repeat constructor. }
  split; [exact H|].
  destruct (pipeline_fixed_order (sample_collaborators true) sample_request)
    as (_ & _ & _ & _ & Hend & _).
  exact (Hend _ _ H).
Defined.

End ApiConfigMiddlewareClaims.


(* ================================================================== *)
(** ** Further facts on the error translator *)
(* ================================================================== *)

Module ErrorHandlerExtras.
Import JS Express ErrorHandler ErrorHandlerFacts.

(** *** Induction on values, through arrays and properties *)

Lemma value_nested_ind (P : value -> Prop) :
  P VUndefined -> P VNull ->
  (forall b, P (VBool b)) ->
  (forall n, P (VNumber n)) ->
  (forall n, P (VBigInt n)) ->
  (forall s, P (VString s)) ->
  (forall r source result, P (VFunction r source result)) ->
  (forall r elems, Forall P elems -> P (VArray r elems)) ->
  (forall r c props, Forall (fun p => P (snd p)) props -> P (VObject r c props)) ->
  forall v, P v.
Proof.
  intros Hu Hn Hb Hnum Hbig Hs Hf Harr Hobj.
  refine (fix IH (v : value) : P v :=
            match v with
            | VUndefined => Hu
            | VNull => Hn
            | VBool b => Hb b
            | VNumber n => Hnum n
            | VBigInt n => Hbig n
            | VString s => Hs s
            | VFunction r source result => Hf r source result
            | VArray r elems =>
                Harr r elems
                  ((fix all (l : list value) : Forall P l :=
                      match l with
                      | [] => @List.Forall_nil _ P
                      | x :: rest => @List.Forall_cons _ P x rest (IH x) (all rest)
                      end) elems)
            | VObject r c props =>
                Hobj r c props
                  ((fix all (l : list (string * value))
                      : Forall (fun p => P (snd p)) l :=
                      match l with
                      | [] => @List.Forall_nil _ _
                      | p :: rest => @List.Forall_cons _ _ p rest (IH (snd p)) (all rest)
                      end) props)
            end).
Qed.

(** *** When [JSON.stringify] throws on data *)

Lemma serialize_toJSON_data (props : list (string * value)) :
  forallb (fun p => function_free (snd p)) props = true ->
  serialize_toJSON props = None.
Proof.
  induction props as [|[k e] props IH]; [reflexivity|].
  cbn [forallb snd]. intros [He Hprops]%andb_prop.
  rewrite serialize_toJSON_cons.
  destruct (k =? "toJSON"); [|by apply IH].
  by destruct e.
Qed.

Lemma serialize_items_outcome l :
  Forall serialize_outcome l ->
  forallb function_free l = true ->
  if existsb contains_bigint l
  then serialize_items l = Throw bigint_type_error
  else exists ss, serialize_items l = Return ss.
Proof.
  induction 1 as [|v l Hv _ IH]; [by eexists|].
  cbn [existsb forallb]. intros [Hdata Hrest]%andb_prop.
  specialize (Hv Hdata true). specialize (IH Hrest).
  rewrite serialize_items_cons.
  destruct (contains_bigint v); cbn [orb].
  - by rewrite Hv.
  - destruct Hv as [o ->].
    destruct (existsb contains_bigint l).
    + by rewrite IH.
    + destruct IH as [ss ->]. by eexists.
Qed.

Lemma serialize_members_outcome (props : list (string * value)) :
  Forall (fun p => serialize_outcome (snd p)) props ->
  forallb (fun p => function_free (snd p)) props = true ->
  if existsb (fun p => contains_bigint (snd p)) props
  then serialize_members props = Throw bigint_type_error
  else exists ss, serialize_members props = Return ss.
Proof.
  induction 1 as [|[k v] l Hv _ IH]; [by eexists|].
  cbn [existsb forallb snd]. cbn [snd] in Hv.
  intros [Hdata Hrest]%andb_prop.
  specialize (Hv Hdata true). specialize (IH Hrest).
  rewrite serialize_members_cons.
  destruct (contains_bigint v); cbn [orb].
  - by rewrite Hv.
  - destruct Hv as [o ->].
    destruct (existsb (fun p => contains_bigint (snd p)) l).
    + by rewrite IH.
    + destruct IH as [ss ->]. by eexists.
Qed.

Lemma serialize_by_bigint v : serialize_outcome v.
Proof.
  induction v as [| | | | | | |r elems IH|r c props IH] using value_nested_ind;
    unfold serialize_outcome; cbn [contains_bigint function_free];
    intros Hdata own; try (by eexists); try reflexivity; try discriminate.
  - destruct b; by eexists.
  - rewrite serialize_array.
    pose proof (serialize_items_outcome elems IH Hdata) as H.
    destruct (existsb contains_bigint elems).
    + by rewrite H.
    + destruct H as [ss ->]. by eexists.
  - rewrite serialize_object, (serialize_toJSON_data props Hdata).
    replace (if own then None else None)
      with (@None (outcome (option string))) by (by destruct own).
    pose proof (serialize_members_outcome props IH Hdata) as H.
    destruct (existsb (fun p => contains_bigint (snd p)) props).
    + by rewrite H.
    + destruct H as [ss ->]. by eexists.
Qed.

Lemma JSON_stringify_by_bigint v :
  function_free v = true ->
  if contains_bigint v
  then JSON_stringify v = Throw bigint_type_error
  else exists text, JSON_stringify v = Return text.
Proof.
  intros Hdata.
  pose proof (serialize_by_bigint v Hdata true) as H.
  unfold JSON_stringify. destruct (contains_bigint v).
  - by rewrite H.
  - destruct H as [[s|] ->]; by eexists.
Qed.

Lemma responses_app t t' :
  responses (t ++ t')%list = (responses t ++ responses t')%list.
Proof.
  induction t as [|e t IH]; [reflexivity|].
  destruct e; cbn [app responses]; by rewrite IH.
Qed.

Lemma classify_runtime_is_error error :
  classify error = RuntimeError -> instanceof_Error error = true.
Proof.
  unfold classify.
  destruct (instanceof_PrismaClientKnownRequestError error); [discriminate|].
  destruct (status_carrier error); [discriminate|].
  by destruct (instanceof_Error error).
Qed.

(** X2. What the validation branch does on data. Let the error be taken by
    the validation branch, let its [error] property be data (no function
    occurs in it, so no [toJSON]; a value is a finite tree, so no cycle), and
    let its [status] be a number, a boolean, [null] or [undefined], read by
    Node as the 32-bit integer [code]. If a BigInt occurs in the [error]
    property, at any depth, [handleError] raises the [TypeError] of
    [JSON.stringify] and has written nothing. If none occurs and [code] is
    from 100 to 999, it returns after one complete answer. If none occurs and
    [code] is out of that range, it writes its log lines, records the status
    and throws the error with which Node refuses the status code: no response
    is sent. *)
Theorem handleError_validation_outcomes (error : value) (code : Z)
    (req : Request) (res : Response) (errorMessage : option string) (w : world) :
  classify error = ValidationError ->
  function_free (get error "error") = true ->
  status_int32 (get error "status") = Some code ->
  if contains_bigint (get error "error")
  then handleError error req res errorMessage w = (Throw bigint_type_error, w)
  else
    exists text,
      JSON_stringify (get error "error") = Return text /\
      handleError error req res errorMessage w
      = if valid_status_code code
        then (Return tt,
              written w
                (answer w "Erreur de validation" req text errorMessage
                   (get error "status") (get error "error")))
        else (Throw (InvalidStatusCode (get error "status")),
              written w
                [ConsoleError
                   (console_line (formatDate_now w) "Erreur de validation" text
                      errorMessage);
                 LoggerError
                   (logger_line "Erreur de validation" req text errorMessage);
                 ResStatus (get error "status")]).
Proof.
  intros Hk Hdata Hcode.
  pose proof (JSON_stringify_by_bigint (get error "error") Hdata) as H.
  destruct (contains_bigint (get error "error")).
  - by rewrite handleError_validation, H by exact Hk.
  - destruct H as [text Htext]. exists text. split; [exact Htext|].
    by rewrite (handleError_validation_code req res errorMessage w error code text).
Qed.

Lemma handleError_validation_outcomes_witness :
  let nested := VObject 2 ObjectClass
                  [("fields", VArray 3 [VString "id"; VBigInt 7])] in
  let hidden := VObject 1 ObjectClass [("status", VNumber 400); ("error", nested)] in
  let refused := VObject 4 ObjectClass
                   [("status", VNumber 1000); ("error", VString "too far")] in
  (classify hidden = ValidationError /\
   function_free (get hidden "error") = true /\
   status_int32 (get hidden "status") = Some 400%Z /\
   handleError hidden sample_request sample_response None sample_world
   = (Throw bigint_type_error, sample_world)) /\
  (classify refused = ValidationError /\
   function_free (get refused "error") = true /\
   status_int32 (get refused "status") = Some 1000%Z /\
   exists text,
     handleError refused sample_request sample_response None sample_world
     = (Throw (InvalidStatusCode (VNumber 1000)),
        written sample_world
          [ConsoleError
             (console_line (formatDate_now sample_world) "Erreur de validation"
                text None);
           LoggerError
             (logger_line "Erreur de validation" sample_request text None);
           ResStatus (VNumber 1000)])).
Proof.
  intros nested hidden refused. split.
  - repeat (split; [reflexivity|]).
    exact (handleError_validation_outcomes hidden 400 sample_request
             sample_response None sample_world eq_refl eq_refl eq_refl).
  - repeat (split; [reflexivity|]).
    destruct (handleError_validation_outcomes refused 1000 sample_request
                sample_response None sample_world eq_refl eq_refl eq_refl)
      as (text & _ & Hrun).
    by exists text.
Defined.

(** X3. What [handleError] sends to the client, and whether it returns or
    throws, is fixed by the error value alone: the request, the optional
    diagnostic message and the date only reach the log lines. *)
Theorem response_fixed_by_error (error : value) (res : Response) :
  exists (result : outcome unit) (sent : list ErrorEnvelope),
    forall (req : Request) (errorMessage : option string) (w : world),
      (handleError error req res errorMessage w).1 = result /\
      responses (trace (handleError error req res errorMessage w).2)
      = (responses (trace w) ++ sent)%list.
Proof.
  destruct (classify error) eqn:Hk.
  - exists (Return tt),
      [{| env_status := VNumber (pm_status (getPrismaErrorMessage error));
          env_error := VString (pm_message (getPrismaErrorMessage error)) |}].
    intros req errorMessage w.
    rewrite handleError_storage by exact Hk.
    split; [reflexivity|]. cbn [snd written trace]. by rewrite responses_app.
  - destruct (JSON_stringify (get error "error")) as [text|x] eqn:Hjson.
    + destruct (sendErrorResponse_frame res (get error "status") (get error "error"))
        as (result & events & Hsend).
      exists result, (responses events).
      intros req errorMessage w.
      rewrite handleError_validation, Hjson, Hsend by exact Hk.
      split; [reflexivity|]. cbn [snd written trace].
      rewrite !responses_app. unfold log_lines. cbn [responses].
      by rewrite app_nil_r.
    + exists (Throw x), []. intros req errorMessage w.
      rewrite handleError_validation, Hjson by exact Hk.
      split; [reflexivity|]. cbn [snd]. by rewrite app_nil_r.
  - exists (Return tt),
      [{| env_status := VNumber 500; env_error := get error "message" |}].
    intros req errorMessage w.
    rewrite handleError_runtime by exact Hk.
    split; [reflexivity|]. cbn [snd written trace]. by rewrite responses_app.
  - exists (Return tt),
      [{| env_status := VNumber 500;
          env_error := VString "Erreur serveur inconnue" |}].
    intros req errorMessage w.
    rewrite handleError_unknown by exact Hk.
    split; [reflexivity|]. cbn [snd written trace]. by rewrite responses_app.
Qed.

(** X4. A value that is no [Error] and carries no [status] property, such as
    an array or a plain object holding only a [message], is answered like an
    unknown value: status 500 and the fixed text, whatever the value holds. *)
Theorem statusless_object_generic_500 (error : value) (req : Request)
    (res : Response) (errorMessage : option string) (w : world) :
  instanceof_Error error = false ->
  has_property "status" error = false ->
  handleError error req res errorMessage w
  = (Return tt,
     written w
       (answer w "Erreur inconnue" req (VString "Erreur serveur inconnue")
          errorMessage (VNumber 500) (VString "Erreur serveur inconnue"))).
Proof.
  intros Herr Hstatus. apply handleError_unknown.
  unfold classify, status_carrier. rewrite Hstatus, Herr, andb_false_r.
  destruct error as [| | | | | | | |r c props]; try reflexivity.
  by destruct c.
Qed.

Lemma statusless_object_generic_500_witness :
  let error := VObject 1 ObjectClass
                 [("message", VString "password of the database");
                  ("code", VNumber 42)] in
  instanceof_Error error = false /\
  has_property "status" error = false /\
  responses
    (trace (handleError error sample_request sample_response None sample_world).2)
  = [{| env_status := VNumber 500;
        env_error := VString "Erreur serveur inconnue" |}].
Proof.
  intros error.
  repeat (split; [reflexivity|]).
  rewrite (statusless_object_generic_500 error sample_request sample_response
             None sample_world eq_refl eq_refl).
  reflexivity.
Defined.

(** *** The translation of storage errors *)

Lemma to_string_strings r (names : list string) :
  to_string (VArray r (map VString names)) = String.concat "," names.
Proof.
  cbn [to_string]. rewrite map_map. f_equal.
  induction names as [|n names IH]; [reflexivity|].
  cbn [map]. by rewrite IH.
Qed.

(** X5. For a unique-constraint error ([P2002]) whose [meta.target] is an
    array of field names, the message names them joined by commas. An array is
    always taken, also the empty one: the field name is then empty, and
    [inconnu] is not used. *)
Theorem unique_constraint_names_fields (error : value) (r : ref)
    (names : list string) :
  get error "code" = VString "P2002" ->
  get_optional (get error "meta") "target" = VArray r (map VString names) ->
  pm_status (getPrismaErrorMessage error) = 400%Z /\
  pm_message (getPrismaErrorMessage error)
  = "Erreur : le champ " ++ String.concat "," names
      ++ " doit être unique. La valeur fournie est déjà utilisée.".
Proof.
  intros Hcode Htarget. unfold getPrismaErrorMessage.
  rewrite Hcode. cbn [strict_equals]. rewrite String.eqb_refl.
  rewrite Htarget. unfold or_else. cbn [truthy pm_status pm_message].
  by rewrite to_string_strings.
Qed.

Lemma unique_constraint_names_fields_witness :
  let error :=
    VObject 1 (PrismaClientKnownRequestError "Unique constraint failed")
      [("code", VString "P2002");
       ("meta", VObject 2 ObjectClass
                  [("modelName", VString "User");
                   ("target", VArray 3 (map VString ["email"; "tenantId"]))])] in
  get error "code" = VString "P2002" /\
  get_optional (get error "meta") "target"
  = VArray 3 (map VString ["email"; "tenantId"]) /\
  pm_message (getPrismaErrorMessage error)
  = "Erreur : le champ email,tenantId doit être unique. La valeur fournie est déjà utilisée.".
Proof.
  intros error.
  split; [reflexivity|]. split; [reflexivity|].
  exact (proj2 (unique_constraint_names_fields error 3%N ["email"; "tenantId"]
                  eq_refl eq_refl)).
Defined.

(** X6. The translation of a storage error depends on its [code] and on its
    [meta.target] alone: two known errors that agree on both get the same
    status and message and the same response, whatever their own messages and
    other properties are. *)
Theorem translation_fixed_by_code_and_target (e1 e2 : value) :
  get e1 "code" = get e2 "code" ->
  get_optional (get e1 "meta") "target" = get_optional (get e2 "meta") "target" ->
  getPrismaErrorMessage e1 = getPrismaErrorMessage e2 /\
  (instanceof_PrismaClientKnownRequestError e1 = true ->
   instanceof_PrismaClientKnownRequestError e2 = true ->
   forall req res errorMessage w,
     handleError e1 req res errorMessage w = handleError e2 req res errorMessage w).
Proof.
  intros Hcode Htarget.
  assert (Hsame : getPrismaErrorMessage e1 = getPrismaErrorMessage e2).
  { unfold getPrismaErrorMessage. by rewrite Hcode, Htarget. }
  split; [exact Hsame|].
  intros H1 H2 req res errorMessage w.
  rewrite !handleError_storage, Hsame; [reflexivity| |];
    unfold classify; by rewrite ?H1, ?H2.
Qed.

Lemma translation_fixed_by_code_and_target_witness :
  let e1 := VObject 1 (PrismaClientKnownRequestError "Record to update not found.")
              [("code", VString "P2025"); ("clientVersion", VString "6.2.1")] in
  let e2 := VObject 2 (PrismaClientKnownRequestError "No User found")
              [("code", VString "P2025");
               ("meta", VObject 3 ObjectClass [("cause", VString "secret")])] in
  get e1 "code" = get e2 "code" /\
  get_optional (get e1 "meta") "target" = get_optional (get e2 "meta") "target" /\
  getPrismaErrorMessage e1 = getPrismaErrorMessage e2.
Proof.
  intros e1 e2.
  split; [reflexivity|]. split; [reflexivity|].
  exact (proj1 (translation_fixed_by_code_and_target e1 e2 eq_refl eq_refl)).
Defined.

End ErrorHandlerExtras.


(* ================================================================== *)
(** ** Further facts on the middleware pipeline *)
(* ================================================================== *)

Module ApiConfigMiddlewareExtras.
Import JS Express ApiConfigMiddleware ApiConfigMiddlewareClaims.

(** *** The compression filter *)

Lemma matches_at_end_canonical pattern s s' :
  canonicalize_all s = canonicalize_all s' ->
  matches_at_end pattern s = matches_at_end pattern s'.
Proof.
  revert s'. induction s as [|c s IH]; intros [|c' s'] H; try discriminate.
  - reflexivity.
  - cbn [canonicalize_all] in H. injection H as Hc Hs.
    cbn [matches_at_end canonicalize_all]. by rewrite Hc, Hs, (IH s' Hs).
Qed.

(** X7. The compression decision does not depend on the letter case of the
    path: two requests with the same override header whose paths differ only
    in the case of ASCII letters get the same decision. *)
Theorem compression_decision_ignores_case (r1 r2 : Request) :
  headers r1 !! "x-no-compression" = headers r2 !! "x-no-compression" ->
  canonicalize_all (path r1) = canonicalize_all (path r2) ->
  compression_filter r1 = compression_filter r2.
Proof.
  intros Hheader Hpath. unfold compression_filter, header.
  rewrite Hheader. destruct (truthy _); [reflexivity|].
  unfold matches_media_extension. f_equal.
  induction media_extensions as [|ext exts IH]; [reflexivity|].
  cbn [existsb]. by rewrite IH, (matches_at_end_canonical _ _ _ Hpath).
Qed.

Lemma compression_decision_ignores_case_witness :
  let upper := {| method := "GET"; originalUrl := "/img/LOGO.Png";
                  url := "/img/LOGO.Png"; path := "/img/LOGO.Png";
                  headers := ∅; remoteAddress := "127.0.0.1";
                  body := VUndefined |} in
  let lower := {| method := "GET"; originalUrl := "/img/logo.png";
                  url := "/img/logo.png"; path := "/img/logo.png";
                  headers := ∅; remoteAddress := "127.0.0.1";
                  body := VUndefined |} in
  headers upper !! "x-no-compression" = headers lower !! "x-no-compression" /\
  canonicalize_all (path upper) = canonicalize_all (path lower) /\
  compression_filter upper = compression_filter lower /\
  compression_filter lower = false.
Proof.
  intros upper lower.
  split; [reflexivity|]. split; [reflexivity|].
  split; [|reflexivity].
  exact (compression_decision_ignores_case upper lower eq_refl eq_refl).
Defined.

Lemma canonicalize_dot c : canonicalize c = "."%char -> c = "."%char.
Proof.
  destruct c as [[] [] [] [] [] [] [] []]; vm_compute; congruence.
Qed.

(** X8. A request without the override header whose path holds no dot is
    never skipped: its response may be compressed. *)
Theorem dotless_path_is_compressed (req : Request) :
  headers req !! "x-no-compression" = None ->
  (forall stem rest, path req <> stem ++ "." ++ rest) ->
  compression_filter req = true.
Proof.
  intros Hheader Hdot. unfold compression_filter, header. rewrite Hheader.
  cbn [truthy]. apply negb_true_iff.
  destruct (matches_media_extension (path req)) eqn:Hm; [|reflexivity].
  apply matches_media_extension_iff in Hm as (stem & tail & ext & Hpath & _ & Htail).
  exfalso. destruct tail as [|c tail]; [discriminate|].
  injection Htail as Hc _. apply canonicalize_dot in Hc as ->.
  by apply (Hdot stem tail).
Qed.

Lemma dotless_path_is_compressed_witness :
  headers sample_request !! "x-no-compression" = None /\
  (forall stem rest, path sample_request <> stem ++ "." ++ rest) /\
  compression_filter sample_request = true.
Proof.
  assert (Hdot : forall stem rest, path sample_request <> stem ++ "." ++ rest).
  { intros stem rest H. cbn [path sample_request] in H.
    repeat (destruct stem as [|? stem]; simpl in H; [discriminate H|];
            injection H as _ H).
    destruct stem; discriminate H. }
  split; [reflexivity|]. split; [exact Hdot|].
  exact (dotless_path_is_compressed sample_request eq_refl Hdot).
Defined.


(** *** Configuring an application that is already set up *)

Lemma configureMiddleware_app c (app : Application) :
  configureMiddleware c app = (app ++ configureMiddleware c express)%list.
Proof.
  unfold configureMiddleware, app_use, app_set, express.
  cbn [Datatypes.app]. by rewrite <- !app_assoc.
Qed.

Lemma stack_app (a b : Application) :
  stack (a ++ b)%list = (stack a ++ stack b)%list.
Proof.
  induction a as [|[s fn|k v] a IH]; cbn [Datatypes.app stack]; by rewrite ?IH.
Qed.

Lemma app_settings_configured c (app : Application) :
  app_settings (configureMiddleware c app)
  = write_setting "trust proxy" ["loopback"; "linklocal"; "uniquelocal"]
      (app_settings app).
Proof.
  rewrite configureMiddleware_app. unfold app_settings.
  by rewrite fold_left_app.
Qed.

(** X9. Whatever was set up on the application before, [configureMiddleware]
    keeps the middleware already registered and adds its own seven after
    them, sets [trust proxy] and its compiled form [trust proxy fn] to the
    three trusted networks, leaves every other setting as it was, and so has
    [req.ip] always resolved through these networks. *)
Theorem configureMiddleware_extends (c : Collaborators) (app : Application) :
  stack (configureMiddleware c app)
  = (stack app ++ stack (configureMiddleware c express))%list /\
  length (stack (configureMiddleware c app)) = (length (stack app) + 7)%nat /\
  (forall key, key <> "trust proxy" -> key <> "trust proxy fn" ->
     app_settings (configureMiddleware c app) !! key = app_settings app !! key) /\
  app_settings (configureMiddleware c app) !! "trust proxy"
  = Some ["loopback"; "linklocal"; "uniquelocal"] /\
  app_settings (configureMiddleware c app) !! "trust proxy fn"
  = Some ["loopback"; "linklocal"; "uniquelocal"] /\
  (forall req,
     req_ip c (app_settings (configureMiddleware c app)) req
     = proxyaddr c ["loopback"; "linklocal"; "uniquelocal"] req).
Proof.
  assert (Hstack : stack (configureMiddleware c app)
                   = (stack app ++ stack (configureMiddleware c express))%list)
    by (by rewrite configureMiddleware_app, stack_app).
  split; [exact Hstack|]. split.
  { rewrite Hstack, length_app. reflexivity. }
  rewrite app_settings_configured.
  change (write_setting "trust proxy" ["loopback"; "linklocal"; "uniquelocal"]
            (app_settings app))
    with (<["trust proxy fn" := ["loopback"; "linklocal"; "uniquelocal"]]>
            (<["trust proxy" := ["loopback"; "linklocal"; "uniquelocal"]]>
               (app_settings app))).
  assert (Hcompiled :
            <["trust proxy fn" := ["loopback"; "linklocal"; "uniquelocal"]]>
              (<["trust proxy" := ["loopback"; "linklocal"; "uniquelocal"]]>
                 (app_settings app)) !! "trust proxy fn"
            = Some ["loopback"; "linklocal"; "uniquelocal"])
    by apply lookup_insert_eq.
  split; [|split; [|split]].
  - intros key Hkey Hfn.
    etrans; [by apply lookup_insert_ne|]. by apply lookup_insert_ne.
  - etrans; [by apply lookup_insert_ne|]. apply lookup_insert_eq.
  - exact Hcompiled.
  - intros req. unfold req_ip.
    replace (_ !! "trust proxy fn")
      with (Some ["loopback"; "linklocal"; "uniquelocal"]); reflexivity.
Qed.

(** *** One exchange through the configured pipeline *)

(** The cases of an exchange: each imported stage passes the request on or
    ends the exchange. *)
Ltac exchange_cases configured :=
  unfold handle;
  let Hst := fresh "Hst" in
  assert (Hst : app_settings configured !! "trust proxy fn"
                = Some ["loopback"; "linklocal"; "uniquelocal"]) by reflexivity;
  let st := fresh "st" in
  set (st := app_settings configured) in *; clearbody st;
  cbn [configureMiddleware express app_use app_set Datatypes.app stack dispatch];
  unfold compression, log_request, req_ip; rewrite Hst;
  lazy beta iota delta [as_middleware];
  repeat match goal with
         | |- context [match ?x with Next _ => _ | Terminate _ => _ end] =>
             destruct x as [?r|?res]; lazy beta iota
         end;
  cbn [entered handled Datatypes.app filter threshold].

(** X10. When every stage passes the request on, each stage receives the
    request as the stage before left it: all seven middleware are entered, in
    their order, and the route handler runs once, on the sanitized request as
    [requestLog] left it. The logging middleware writes one info line, which
    describes the request as it is when [requestLog] has returned, with the
    address resolved through the trusted networks. *)
Theorem request_threaded_through_stages (c : Collaborators)
    (req r1 r2 r3 r4 r5 r6 : Request) :
  let st := app_settings (configureMiddleware c express) in
  let t := handle (configureMiddleware c express) req in
  let logged := request_when_logged c r5 in
  express_json c st req = Next r1 ->
  cors c st r1 = Next r2 ->
  helmet c st r2 = Next r3 ->
  createRateLimiter c 15 100 st r3 = Next r4 ->
  sanitizeRequestData c st r4 = Next r5 ->
  requestLog c st r5 = Next r6 ->
  entered t = middleware_order /\
  handled t = [r6] /\
  List.filter is_log_event t
  = [RotateLog; RequestLog;
     LoggerInfo (" " ++ method logged ++ " - " ++ url logged ++ " - IP:  "
                   ++ proxyaddr c ["loopback"; "linklocal"; "uniquelocal"] logged)].
Proof.
  intros st t logged H1 H2 H3 H4 H5 H6.
  subst t logged. unfold handle. fold st.
  assert (Hst : st !! "trust proxy fn"
                = Some ["loopback"; "linklocal"; "uniquelocal"]) by reflexivity.
  clearbody st.
  cbn [configureMiddleware express app_use app_set Datatypes.app stack dispatch].
  unfold compression, log_request, req_ip, as_middleware.
  by rewrite H1, H2, H3, H4, H5, H6, Hst.
Qed.

Lemma request_threaded_through_stages_witness :
  let c := sample_collaborators false in
  let st := app_settings (configureMiddleware c express) in
  express_json c st sample_request = Next sample_request /\
  cors c st sample_request = Next sample_request /\
  helmet c st sample_request = Next sample_request /\
  createRateLimiter c 15 100 st sample_request = Next sample_request /\
  sanitizeRequestData c st sample_request = Next sample_request /\
  requestLog c st sample_request = Next sample_request /\
  handled (handle (configureMiddleware c express) sample_request)
  = [sample_request].
Proof.
  intros c st.
  repeat (split; [reflexivity|]).
  exact (proj1 (proj2 (request_threaded_through_stages c sample_request
                         sample_request sample_request sample_request
                         sample_request sample_request sample_request
                         eq_refl eq_refl eq_refl eq_refl eq_refl eq_refl))).
Defined.

(** X11. The logging middleware leaves nothing in an exchange that ends
    before it: a request stopped by an earlier stage, such as a denied one, is
    neither rotated for nor logged. An exchange that enters the logging stage
    gets the rotation check, the request log and one info line, in that order,
    also when [requestLog] itself ends the exchange. *)
Theorem logging_only_for_requests_that_reach_it (c : Collaborators)
    (req : Request) :
  let t := handle (configureMiddleware c express) req in
  ((Logging ∉ entered t) /\ List.filter is_log_event t = [])
  \/
  ((Logging ∈ entered t) /\
   exists line,
     List.filter is_log_event t = [RotateLog; RequestLog; LoggerInfo line]).
Proof.
  intros t. subst t.
  exchange_cases (configureMiddleware c express).
  1-2: right; split;
    [repeat first [apply list_elem_of_here | apply list_elem_of_further]
    |by eexists].
  all: left; split; [|reflexivity].
  all: intros H;
    repeat (apply elem_of_cons in H as [H|H]; [discriminate|]);
    by apply elem_of_nil in H.
Qed.

End ApiConfigMiddlewareExtras.


(* ================================================================== *)
(** ** Facts on the shutdown of the server *)
(* ================================================================== *)

Module ServerExtras.
Import JS Server.

(** X12. On SIGINT the database is disconnected before the server is asked
    to close, and the process exits, with code 0, only after both and once
    the server has closed. When the disconnection fails, the handler stops
    there: the server is not closed and the process is not exited. *)
Theorem shutdown_order (disconnect : outcome unit) (closed : bool) :
  let run := on_SIGINT disconnect closed in
  (forall code, Exit code ∈ run.2 ->
     code = 0%Z /\
     disconnect = Return tt /\
     closed = true /\
     run.2 = [ConsoleLog "Server shutdown..."; Disconnect; ServerClose;
              ConsoleLog "Server stopped successfully."; Exit 0]) /\
  (forall e, disconnect = Throw e ->
     run = (Throw e, [ConsoleLog "Server shutdown..."; Disconnect])) /\
  (disconnect = Return tt -> closed = false ->
     run = (Return tt,
            [ConsoleLog "Server shutdown..."; Disconnect; ServerClose])).
Proof.
  intros run. subst run. split; [|split].
  - intros code H. destruct disconnect as [[]|e], closed; cbn in H;
      repeat (apply elem_of_cons in H as [H|H]; [try discriminate|]);
      try (by apply elem_of_nil in H).
    injection H as ->. by repeat split.
  - by intros e ->.
  - by intros -> ->.
Qed.

Lemma shutdown_order_witness :
  Exit 0 ∈ (on_SIGINT (Return tt) true).2 /\
  (on_SIGINT (Return tt) true).2
  = [ConsoleLog "Server shutdown..."; Disconnect; ServerClose;
     ConsoleLog "Server stopped successfully."; Exit 0].
Proof.
  assert (H : Exit 0 ∈ (on_SIGINT (Return tt) true).2)
    by (cbn; repeat first [apply list_elem_of_here | apply list_elem_of_further]).
  split; [exact H|].
  exact (proj2 (proj2 (proj2 (proj1 (shutdown_order (Return tt) true) 0%Z H)))).
Defined.

End ServerExtras.
